(** * bin2ics: HTML bin-collection schedule to calendar events

    A shallow embedding of [bin2ics.py] and the properties of its two core
    stages: the extractor ([_extract_date], [_scrape]) and the event mapper
    ([_build_calendar]).

    Python values are modelled as follows.
    - [str] is a sequence of Unicode code points ([list N]); literals of
      the source are written as UTF-8 string literals and decoded by [py].
    - The builtins [str.strip], [str.lower], [str.capitalize], [in] and the
      [re] engine are written out as CPython computes them; the Unicode
      tables they consult beyond ASCII are a parameter ([UnicodeDB]).
    - [dateutil], [BeautifulSoup] and [requests] are interfaces
      ([DateParser], [Soup], [Http]); the iteration order of a Python [set]
      is an interface too ([SetOrder]), since CPython derives it from
      per-process randomised string hashes. *)

From Stdlib Require Import NArith ZArith Ascii String Lia.
From stdpp Require Import base option list gmap sorting.

Local Open Scope N_scope.

(** ** Python strings *)

Module PyStr.

Definition str : Type := list N.

(** Decoding of a UTF-8 byte sequence into code points. *)
Fixpoint utf8_decode (bs : list N) : str :=
  match bs with
  | [] => []
  | b0 :: r0 =>
      if b0 <? 0x80 then b0 :: utf8_decode r0
      else
        match r0 with
        | [] => []
        | b1 :: r1 =>
            if b0 <? 0xE0 then
              N.lor (N.shiftl (N.land b0 0x1F) 6) (N.land b1 0x3F)
                :: utf8_decode r1
            else
              match r1 with
              | [] => []
              | b2 :: r2 =>
                  if b0 <? 0xF0 then
                    N.lor (N.shiftl (N.land b0 0x0F) 12)
                      (N.lor (N.shiftl (N.land b1 0x3F) 6) (N.land b2 0x3F))
                      :: utf8_decode r2
                  else
                    match r2 with
                    | [] => []
                    | b3 :: r3 =>
                        N.lor (N.shiftl (N.land b0 0x07) 18)
                          (N.lor (N.shiftl (N.land b1 0x3F) 12)
                             (N.lor (N.shiftl (N.land b2 0x3F) 6)
                                (N.land b3 0x3F)))
                          :: utf8_decode r3
                    end
              end
        end
  end.

(** A literal of the (UTF-8 encoded) source file. *)
Definition py (s : string) : str :=
  utf8_decode (map N_of_ascii (list_ascii_of_string s)).

(** [Py_UNICODE_ISSPACE]: the characters [str.strip()] removes and the
    regular-expression class [\s] accepts on [str] patterns. *)
Definition is_space (c : N) : bool :=
  ((0x09 <=? c) && (c <=? 0x0D)) || ((0x1C <=? c) && (c <=? 0x20))
  || (c =? 0x85) || (c =? 0xA0) || (c =? 0x1680)
  || ((0x2000 <=? c) && (c <=? 0x200A))
  || (c =? 0x2028) || (c =? 0x2029) || (c =? 0x202F) || (c =? 0x205F)
  || (c =? 0x3000).

(** The class [[A-Za-z]]. *)
Definition is_ascii_alpha (c : N) : bool :=
  ((0x41 <=? c) && (c <=? 0x5A)) || ((0x61 <=? c) && (c <=? 0x7A)).

Definition is_ascii_upper (c : N) : bool := (0x41 <=? c) && (c <=? 0x5A).
Definition is_ascii_lower (c : N) : bool := (0x61 <=? c) && (c <=? 0x7A).
Definition is_ascii_digit (c : N) : bool := (0x30 <=? c) && (c <=? 0x39).

Fixpoint drop_while (p : N -> bool) (s : str) : str :=
  match s with
  | [] => []
  | c :: r => if p c then drop_while p r else s
  end.

Definition lstrip (s : str) : str := drop_while is_space s.
Definition rstrip (s : str) : str :=
  reverse (drop_while is_space (reverse s)).

(** [s.strip()]. *)
Definition strip (s : str) : str := rstrip (lstrip s).

Fixpoint starts_with (p s : str) : bool :=
  match p, s with
  | [], _ => true
  | _ :: _, [] => false
  | a :: p', b :: s' => (a =? b) && starts_with p' s'
  end.

(** [sub in s]. *)
Fixpoint contains (sub s : str) : bool :=
  starts_with sub s ||
  match s with
  | [] => false
  | _ :: s' => contains sub s'
  end.

(** The part of the Unicode character database that CPython consults
    for code points outside ASCII, and the two case-context properties
    used for the capital sigma. *)
Class UnicodeDB := {
  uni_decimal : N -> bool;         (* _PyUnicode_IsDecimalDigit *)
  uni_lower : N -> list N;         (* _PyUnicode_ToLowerFull *)
  uni_title : N -> list N;         (* _PyUnicode_ToTitleFull *)
  uni_cased : N -> bool;           (* _PyUnicode_IsCased *)
  uni_case_ignorable : N -> bool   (* _PyUnicode_IsCaseIgnorable *)
}.

Section Case.
Context {U : UnicodeDB}.

(** The regular-expression class [\d] on a [str] pattern. *)
Definition is_decimal (c : N) : bool :=
  if c <? 0x80 then is_ascii_digit c else uni_decimal c.

Definition to_lower_full (c : N) : list N :=
  if c <? 0x80 then [if is_ascii_upper c then c + 0x20 else c]
  else uni_lower c.

Definition to_title_full (c : N) : list N :=
  if c <? 0x80 then [if is_ascii_lower c then c - 0x20 else c]
  else uni_title c.

Definition SIGMA : N := 0x3A3.

(** [handle_capital_sigma]: [before] holds the characters preceding
    the sigma, nearest first; [after] those following it. *)
Definition final_sigma (before after : str) : bool :=
  match drop_while uni_case_ignorable before with
  | [] => false
  | c :: _ =>
      uni_cased c &&
      match drop_while uni_case_ignorable after with
      | [] => true
      | c' :: _ => negb (uni_cased c')
      end
  end.

(** [lower_ucs4]: the lower-casing of one character in its context. *)
Definition lower_ucs4 (before : str) (c : N) (after : str) : list N :=
  if c =? SIGMA then [if final_sigma before after then 0x3C2 else 0x3C3]
  else to_lower_full c.

Fixpoint lower_from (before s : str) : str :=
  match s with
  | [] => []
  | c :: r => lower_ucs4 before c r ++ lower_from (c :: before) r
  end.

(** [s.lower()]. *)
Definition lower (s : str) : str := lower_from [] s.

(** [s.capitalize()]: the first character title-cased, the rest
    lower-cased. *)
Definition capitalize (s : str) : str :=
  match s with
  | [] => []
  | c :: r => to_title_full c ++ lower_from [c] r
  end.

End Case.

End PyStr.
Export PyStr.

(** ** The regular-expression engine, for patterns that are a sequence of
    greedily quantified character classes *)

Module Re.

(** One item [cls{lo,hi}] of a pattern; [hi = None] is unbounded. *)
Record item := Item { i_cls : N -> bool; i_lo : nat; i_hi : option nat }.

Definition room (hi : option nat) : bool :=
  match hi with Some O => false | _ => true end.

Definition less (hi : option nat) : option nat :=
  match hi with Some n => Some (Nat.pred n) | None => None end.

(** Greedy repetition with backtracking: take as many characters of
    the class as allowed, then give them back one by one until the
    continuation [k] succeeds.  The result is the matched text. *)
Fixpoint greedy (p : N -> bool) (lo : nat) (hi : option nat)
    (k : str -> option str) (s : str) : option str :=
  let stop := match lo with O => k s | S _ => None end in
  match s with
  | [] => stop
  | c :: s' =>
      if p c && room hi then
        match greedy p (Nat.pred lo) (less hi) k s' with
        | Some m => Some (c :: m)
        | None => stop
        end
      else stop
  end.

Fixpoint match_here (pat : list item) : str -> option str :=
  match pat with
  | [] => fun _ => Some []
  | it :: pat' => greedy (i_cls it) (i_lo it) (i_hi it) (match_here pat')
  end.

(** A match object: where the match starts and [m.group(0)]. *)
Record Match := { m_start : nat; group0 : str }.

Fixpoint search_from (pat : list item) (pos : nat) (s : str) : option Match :=
  match match_here pat s with
  | Some m => Some {| m_start := pos; group0 := m |}
  | None =>
      match s with
      | [] => None
      | _ :: s' => search_from pat (S pos) s'
      end
  end.

(** [pattern.search(s)]: the leftmost match. *)
Definition search (pat : list item) (s : str) : option Match :=
  search_from pat 0 s.

(** Whether a count of repetitions respects the upper bound. *)
Definition within (hi : option nat) (n : nat) : Prop :=
  match hi with Some h => (n <= h)%nat | None => True end.

(** The language of a pattern: a text matches when it splits into one
    run of characters per item, each run within the bounds of its item
    and made of characters of its class. *)
Inductive matches : list item -> str -> Prop :=
  | matches_nil : matches [] []
  | matches_cons it pat w m :
      Forall (fun c => i_cls it c = true) w ->
      (i_lo it <= length w)%nat ->
      within (i_hi it) (length w) ->
      matches pat m ->
      matches (it :: pat) (w ++ m).

(** A text in which the pattern matches somewhere. *)
Definition occurs (pat : list item) (s : str) : Prop :=
  exists pre m post, s = pre ++ m ++ post /\ matches pat m.

End Re.

(** ** Dates *)

Record date := Date { year : Z; month : Z; day : Z }.

Global Instance date_eq_dec : EqDecision date.
Proof. solve_decision. Defined.

(** The order of [datetime.date]: by year, then month, then day. *)
Definition date_compare (a b : date) : comparison :=
  match (year a ?= year b)%Z with
  | Eq => match (month a ?= month b)%Z with
          | Eq => (day a ?= day b)%Z
          | c => c
          end
  | c => c
  end.

Definition date_ltb (a b : date) : bool :=
  match date_compare a b with Lt => true | _ => false end.

Definition date_le (a b : date) : Prop := date_ltb b a = false.

(** [date.isoformat()], which is also [str(date)]: [%04d-%02d-%02d].  A
    [datetime.date] has [1 <= year <= 9999], [1 <= month <= 12] and
    [1 <= day <= 31], so the fields fill exactly four, two and two
    digits. *)
Definition digit (n : Z) : N := 0x30 + Z.to_N (n mod 10).

Definition isoformat (d : date) : str :=
  [digit (year d / 1000); digit (year d / 100); digit (year d / 10);
   digit (year d); 0x2D;
   digit (month d / 10); digit (month d); 0x2D;
   digit (day d / 10); digit (day d)].

(** ** The libraries the program calls *)

(** [dateutil.parser.parse(s, dayfirst=False).date()] on a string either
    yields a date or raises [ParserError] (a [ValueError]) or
    [OverflowError]; these are the exceptions dateutil documents for
    string input. *)
Inductive parse_result :=
  | Parsed (d : date)
  | ValueError
  | OverflowError.

(** The program calls the parser without [default=], and the parser then
    takes the fields that a text leaves out from the current date: what
    it makes of "Tuesday, 7 Mon 2025", which names no month, depends on
    the day of the call.  [parse_on day s] is the answer on the day
    [day]; [today] is the day of the run. *)
Class DateParser := {
  today : date;
  parse_on : date -> str -> parse_result
}.

(** [dtparse.parse(s, dayfirst=False).date()] during the run. *)
Definition dtparse {P : DateParser} (s : str) : parse_result :=
  parse_on today s.

(** The BeautifulSoup queries that [_scrape] issues.  [tag] is a node of
    the parsed document. *)
Class Soup := {
  soup : Type;
  tag : Type;
  (* BeautifulSoup(text, "html.parser") *)
  BeautifulSoup : str -> soup;
  (* soup.select("div.colldates") *)
  select_colldates : soup -> list tag;
  (* colldiv.find_previous("div", class_="u-mb-4") *)
  find_previous_u_mb_4 : tag -> option tag;
  (* colldiv.parent *)
  parent : tag -> option tag;
  (* container.find_all("div", class_="u-mb-2") *)
  find_all_u_mb_2 : tag -> list tag;
  (* colldiv.select("ul li") *)
  select_ul_li : tag -> list tag;
  (* t.get_text() *)
  get_text : tag -> str;
  (* t.get_text(strip=True) *)
  get_text_strip : tag -> str;
  (* t.get_text(" ", strip=True) *)
  get_text_sep_strip : tag -> str
}.

(** Exceptions that leave [_scrape]. *)
Inductive exn :=
  | RequestException   (* raised by requests.get *)
  | HTTPError.         (* raised by r.raise_for_status() *)

Inductive outcome (A : Type) :=
  | Return (a : A)
  | Raise (e : exn).
Arguments Return {A} a.
Arguments Raise {A} e.

Class Http := {
  response : Type;
  (* requests.get(url, timeout=30) *)
  requests_get : str -> outcome response;
  (* whether r.raise_for_status() raises *)
  is_error_status : response -> bool;
  (* r.text *)
  r_text : response -> str
}.

(** A (bin_type, date) tuple. *)
Definition record : Type := str * date.

(** The order in which a [set] built by inserting the elements of a list
    one after the other is iterated.  Python promises the distinct
    elements, each once, and no more: CPython orders them by hash, and
    the hash of a [str] is salted per process. *)
Class SetOrder := {
  set_iter : list record -> list record;
  set_iter_NoDup : forall l, NoDup (set_iter l);
  set_iter_elem : forall l x, x ∈ set_iter l <-> x ∈ l
}.

(** An alarm object of the ics library, by what the program can give
    it: the offset of its trigger from the start of the event, in hours,
    and the text it displays. *)
Record Alarm := { trigger_hours : Z; display_summary : str }.

(** What the event mapper meets of the ics library and of the platform. *)
Class IcsLib := {
  (* the name [DisplayAlarm] after lines 18-21: [None] when the import
     failed, and otherwise the class of the library, which called as
     [DisplayAlarm(trigger=timedelta(hours=h), display_summary=s)]
     returns an alarm or raises *)
  DisplayAlarm : option (Z -> str -> option Alarm);
  (* the uid that the k-th [Event()] of the run draws *)
  uid_gen : nat -> str;
  (* a uid is not drawn twice *)
  uid_gen_inj : Inj (=) (=) uid_gen;
  (* whether setting [ev.begin] to the local midnight of the day, or
     [ev.make_all_day()], raises: it does for a day at an end of the
     range of dates, which day depending on the time zone and the
     library *)
  all_day_raises : date -> bool
}.

(** How the event mapper ends: with a value, or with an exception that
    leaves the round of the loop for the record [bd]. *)
Inductive mapped (A : Type) :=
  | Mapped (a : A)
  | MapRaise (bd : record).
Arguments Mapped {A} a.
Arguments MapRaise {A} bd.

(** ** The program *)

Section Program.
Context {U : UnicodeDB} {P : DateParser} {S : Soup} {W : Http}
  {O : SetOrder} {L : IcsLib}.

(** [DATE_RE = re.compile(r"[A-Za-z]+,?\s+\d{1,2}\s+[A-Za-z]+\s+\d{4}")] *)
Definition DATE_RE : list Re.item :=
  [ Re.Item is_ascii_alpha 1 None;
    Re.Item (N.eqb 0x2C) 0 (Some 1%nat);
    Re.Item is_space 1 None;
    Re.Item is_decimal 1 (Some 2%nat);
    Re.Item is_space 1 None;
    Re.Item is_ascii_alpha 1 None;
    Re.Item is_space 1 None;
    Re.Item is_decimal 4 (Some 4%nat) ].

Definition EMOJI : gmap str str :=
  <[py "Household waste" := py "🗑️"]>
    (<[py "Mixed recycling" := py "♻️"]>
       (<[py "Garden waste recycling" := py "🌿"]> ∅)).

Definition _extract_date (text : str) : option date :=
  match Re.search DATE_RE text with
  | None => None
  | Some m =>
      match dtparse (Re.group0 m) with
      | Parsed d => Some d
      | ValueError | OverflowError => None
      end
  end.

(** What [_scrape] has accumulated and printed so far. *)
Record scrape_state := {
  collections : list record;
  stdout : list str
}.

Definition append (bd : record) (st : scrape_state) : scrape_state :=
  {| collections := collections st ++ [bd]; stdout := stdout st |}.

Definition print (line : str) (st : scrape_state) : scrape_state :=
  {| collections := collections st; stdout := stdout st ++ [line] |}.

Definition MARKER : str := py "Next collection".

(** The loop over [container.find_all("div", class_="u-mb-2")], left by
    [break] at the first block that contains the marker. *)
Fixpoint scan_next (verbose : bool) (bin_type : str) (divs : list tag)
    (st : scrape_state) : scrape_state :=
  match divs with
  | [] => st
  | div :: rest =>
      if contains MARKER (get_text div) then
        match _extract_date (get_text div) with
        | Some d =>
            let st' := append (bin_type, d) st in
            if verbose then
              print (py "Found next " ++ bin_type ++ py ": " ++ isoformat d) st'
            else st'
        | None => st
        end
      else scan_next verbose bin_type rest st
  end.

(** The body of the loop over [colldiv.select("ul li")]. *)
Definition future_item (bin_type : str) (st : scrape_state) (li : tag)
    : scrape_state :=
  match _extract_date (get_text_sep_strip li) with
  | Some d => append (bin_type, d) st
  | None => st
  end.

Definition bin_type_of (colldiv : tag) : str :=
  match find_previous_u_mb_4 colldiv with
  | Some heading_tag => get_text_strip heading_tag
  | None => py "Bin"
  end.

(** The body of the loop over [soup.select("div.colldates")]. *)
Definition section_step (verbose : bool) (st : scrape_state) (colldiv : tag)
    : scrape_state :=
  let bin_type := bin_type_of colldiv in
  let st1 :=
    match parent colldiv with
    | Some container =>
        scan_next verbose bin_type (find_all_u_mb_2 container) st
    | None => st
    end in
  fold_left (future_item bin_type) (select_ul_li colldiv) st1.

(** [sorted(xs, key=lambda bd: bd[1])]: stable, comparing keys with
    [<] only. *)
Fixpoint insert_by_date (x : record) (l : list record) : list record :=
  match l with
  | [] => [x]
  | y :: l' =>
      if date_ltb y.2 x.2 then y :: insert_by_date x l' else x :: l
  end.

Fixpoint sorted_by_date (l : list record) : list record :=
  match l with
  | [] => []
  | x :: l' => insert_by_date x (sorted_by_date l')
  end.

Definition run_sections (verbose : bool) (s : soup) : scrape_state :=
  fold_left (section_step verbose) (select_colldates s)
    {| collections := []; stdout := [] |}.

(** [_scrape] from the parsed document on: the returned list and what
    was printed. *)
Definition scrape_soup (verbose : bool) (s : soup)
    : list record * list str :=
  let st := run_sections verbose s in
  let unique := set_iter (collections st) in
  (sorted_by_date unique, stdout st).

(** The extractor on the text of a page. *)
Definition extract (verbose : bool) (html : str) : list record * list str :=
  scrape_soup verbose (BeautifulSoup html).

Definition _scrape (url : str) (verbose : bool)
    : outcome (list record * list str) :=
  match requests_get url with
  | Raise e => Raise e
  | Return r =>
      if is_error_status r then Raise HTTPError
      else Return (extract verbose (r_text r))
  end.

(** *** The event mapper *)

Record Event := {
  name : str;
  begin : date;          (* local midnight of the day *)
  all_day : bool;
  description : str;
  location : str;
  categories : list str;
  alarms : list Alarm
}.

(** [cal.events] is a set, and the ics library tells events apart by
    the uid that each [Event()] draws: the set is the finite map from
    the uids of its members to what the loop set on them. *)
Record Calendar := { events : gmap str Event }.

(** The order in which the set [cal.events] is iterated: its members,
    each once.  The library hashes an event by its uid, so the order
    follows the uids drawn and not the order of the [add] calls. *)
Class EventOrder := {
  events_iter : gmap str Event -> list (str * Event);
  events_iter_perm : forall m, events_iter m ≡ₚ map_to_list m
}.

Definition SHORT : gmap str str :=
  <[py "Household waste" := py "Household Waste"]>
    (<[py "Mixed recycling" := py "Recycling"]>
       (<[py "Garden waste recycling" := py "Garden"]> ∅)).

Definition title (bin_type : str) : str :=
  strip (default (py "") (EMOJI !! bin_type) ++ py " "
           ++ default bin_type (SHORT !! bin_type)).

(** Lines 102-103: what the round appends to [ev.alarms], which is
    empty before; [None] when the call of the class raises. *)
Definition new_alarms (name : str) : option (list Alarm) :=
  match DisplayAlarm with
  | None => Some []
  | Some cls =>
      match cls (-12)%Z name with
      | Some a => Some [a]
      | None => None
      end
  end.

(** The event that a round of the loop of [_build_calendar] adds, when
    no exception leaves the round. *)
Definition make_event (bd : record) : Event :=
  let '(bin_type, date) := bd in
  let name := title bin_type in
  {| name := name;
     begin := date;
     all_day := true;
     description :=
       capitalize (py "Put out the " ++ lower bin_type ++ py " bin.");
     location := py "Kerbside";
     categories := [bin_type];
     alarms := default [] (new_alarms name) |}.

(** A round of the loop up to line 103: the event it has made, or
    [None] when lines 96-97 or line 103 raise. *)
Definition event_of (bd : record) : option Event :=
  if all_day_raises bd.2 then None
  else match new_alarms (title bd.1) with
       | Some _ => Some (make_event bd)
       | None => None
       end.

(** [cal.events.add(ev)] for the event with uid [u]: a set keeps the
    member it has when an equal one is added. *)
Definition add (u : str) (ev : Event) (cal : Calendar) : Calendar :=
  {| events :=
       match events cal !! u with
       | Some _ => events cal
       | None => <[u := ev]> (events cal)
       end |}.

(** The loop of [_build_calendar] from its [k]-th round on. *)
Fixpoint build_from (k : nat) (evs : list record) (cal : Calendar)
    : mapped Calendar :=
  match evs with
  | [] => Mapped cal
  | bd :: rest =>
      match event_of bd with
      | None => MapRaise bd
      | Some ev => build_from (Nat.succ k) rest (add (uid_gen k) ev cal)
      end
  end.

Definition _build_calendar (evs : list record) : mapped Calendar :=
  build_from 0 evs {| events := ∅ |}.

(** *** What the loops accumulate *)

(** Records compared by their date alone, as the sort key does. *)
Definition by_date (a b : record) : Prop := date_le a.2 b.2.

(** The records one text fragment adds to [collections]. *)
Definition contribution (bin_type text : str) : list record :=
  match _extract_date text with
  | Some d => [(bin_type, d)]
  | None => []
  end.

(** The records the next-collection scan adds. *)
Fixpoint next_contribution (bin_type : str) (divs : list tag) : list record :=
  match divs with
  | [] => []
  | div :: rest =>
      if contains MARKER (get_text div)
      then contribution bin_type (get_text div)
      else next_contribution bin_type rest
  end.

(** The records one [div.colldates] adds. *)
Definition section_records (colldiv : tag) : list record :=
  let bin_type := bin_type_of colldiv in
  match parent colldiv with
  | Some container => next_contribution bin_type (find_all_u_mb_2 container)
  | None => []
  end
  ++ (select_ul_li colldiv ≫=
        fun li => contribution bin_type (get_text_sep_strip li)).

(** The description as the specification words it: the template with
    the lower-cased bin type, its first character capitalised and nothing
    else changed. *)
Definition capitalize_first (s : str) : str :=
  match s with
  | [] => []
  | c :: r => to_title_full c ++ r
  end.

Definition description_spec (bin_type : str) : str :=
  capitalize_first (py "Put out the " ++ lower bin_type ++ py " bin.").

(** A character that lower-casing leaves alone, in every context. *)
Definition lower_fixed (x : N) : Prop :=
  x <> SIGMA /\ to_lower_full x = [x].

(** A string with no white space at either end. *)
Definition trimmed (s : str) : Prop :=
  (forall c, head s = Some c -> is_space c = false) /\
  (forall c, last s = Some c -> is_space c = false).

End Program.

(** ** Runs of the engine *)

(** [n] characters at the head of [s] can be the run of an item with
    class [p] and bounds [lo], [hi]. *)
Definition run_ok (p : N -> bool) (lo : nat) (hi : option nat) (s : str)
    (n : nat) : Prop :=
  (n <= length s)%nat /\ Forall (fun c => p c = true) (take n s) /\
  (lo <= n)%nat /\ Re.within hi n.

(** No text of the pattern that begins where [u ++ post] begins reaches
    beyond [u]. *)
Definition match_bounded (pat : list Re.item) (u post : str) : Prop :=
  forall m, Re.matches pat m -> m `prefix_of` u ++ post ->
            (length m <= length u)%nat.

(** ** The command line *)

(** [cal.serialize()] of the ics library. *)
Class IcsSerializer := { serialize : Calendar -> str }.

(** The file system as [main] uses it. *)
Class FileSystem := {
  (* str(Path(p)) *)
  Path : str -> str;
  (* whether out_path.write_text(content, encoding="utf-8") succeeds *)
  write_ok : str -> str -> bool;
  (* when it does not: [None] if the file could not be opened and is as
     it was, [Some rest] if it was opened for writing, which empties it,
     and holds [rest] when the exception leaves *)
  write_residue : str -> str -> option str
}.

(** [str(n)] for a length. *)
Fixpoint uint_digits (u : Decimal.uint) : str :=
  match u with
  | Decimal.Nil => []
  | Decimal.D0 u => 0x30 :: uint_digits u
  | Decimal.D1 u => 0x31 :: uint_digits u
  | Decimal.D2 u => 0x32 :: uint_digits u
  | Decimal.D3 u => 0x33 :: uint_digits u
  | Decimal.D4 u => 0x34 :: uint_digits u
  | Decimal.D5 u => 0x35 :: uint_digits u
  | Decimal.D6 u => 0x36 :: uint_digits u
  | Decimal.D7 u => 0x37 :: uint_digits u
  | Decimal.D8 u => 0x38 :: uint_digits u
  | Decimal.D9 u => 0x39 :: uint_digits u
  end.

Definition str_of_nat (n : nat) : str := uint_digits (Nat.to_uint n).

Module Cli.

(** What [_parse_args] returns: [--url] (absent: [None]), [--output]
    (default "collections.ics") and [--verbose]. *)
Record Namespace := {
  url : option str;
  output : str;
  verbose : bool
}.

(** How [main] ends. *)
Inductive exit :=
  | Finished                  (* main returns *)
  | SystemExit (msg : str)    (* sys.exit(msg) *)
  | ScrapeError (e : exn)     (* an exception that left _scrape *)
  | MapperError (bd : record) (* an exception that left _build_calendar *)
  | WriteError.               (* an exception that left write_text *)

(** What [main] acts on: the lines printed and the files by path. *)
Record world := {
  console : list str;
  files : gmap str str
}.

(** The truth value of an optional string: [None] and [""] are false. *)
Definition truthy (s : option str) : bool :=
  match s with
  | Some (_ :: _) => true
  | _ => false
  end.

(** [a or b]. *)
Definition py_or (a b : option str) : option str :=
  if truthy a then a else b.

Definition say (lines : list str) (w : world) : world :=
  {| console := console w ++ lines; files := files w |}.

Definition write_text (path content : str) (w : world) : world :=
  {| console := console w; files := <[path := content]> (files w) |}.

Section Main.
Context {U : UnicodeDB} {P : DateParser} {S : Soup} {W : Http}
  {O : SetOrder} {L : IcsLib} {E : IcsSerializer} {F : FileSystem}.

(** The line [f"{d.isoformat()}: {b}"]. *)
Definition event_line (bd : record) : str :=
  isoformat bd.2 ++ py ": " ++ bd.1.

(** The line [f"Wrote {out_path} containing {len(events)} events."]. *)
Definition wrote_line (out_path : str) (n : nat) : str :=
  py "Wrote " ++ out_path ++ py " containing " ++ str_of_nat n
    ++ py " events.".

(** [main], given the parsed arguments and the value of the environment
    variable BINCOLL_URL. *)
Definition main (ns : Namespace) (BINCOLL_URL : option str) (w : world)
    : exit * world :=
  match py_or (url ns) BINCOLL_URL with
  | None | Some [] =>
      (SystemExit (py "Error: --url arg or BINCOLL_URL env var required"), w)
  | Some url =>
      match _scrape url (verbose ns) with
      | Raise e => (ScrapeError e, w)
      | Return (events, printed) =>
          let w1 := say printed w in
          let w2 := if verbose ns then say (event_line <$> events) w1 else w1 in
          match _build_calendar events with
          | MapRaise bd => (MapperError bd, w2)
          | Mapped cal =>
              let out_path := Path (output ns) in
              if write_ok out_path (serialize cal) then
                let w3 := write_text out_path (serialize cal) w2 in
                (Finished,
                 if verbose ns
                 then say [wrote_line out_path (length events)] w3
                 else w3)
              else
                (WriteError,
                 match write_residue out_path (serialize cal) with
                 | Some rest => write_text out_path rest w2
                 | None => w2
                 end)
          end
      end
  end.

End Main.

End Cli.


(** ** Concrete libraries, to run the program on examples *)

Module Sample.

(** A character database with nothing beyond ASCII: no further digits,
    no further cased letters. *)
Definition ascii_db : UnicodeDB :=
  {| uni_decimal := fun _ => false;
     uni_lower := fun c => [c];
     uni_title := fun c => [c];
     uni_cased := fun _ => false;
     uni_case_ignorable := fun _ => false |}.

Fixpoint take_while (p : N -> bool) (s : str) : str :=
  match s with
  | [] => []
  | c :: r => if p c then c :: take_while p r else []
  end.

Definition number (ds : str) : Z :=
  fold_left (fun n c => (10 * n + Z.of_N (c - 0x30))%Z) ds 0%Z.

Definition months : list (str * Z) :=
  [ (py "Jan", 1); (py "Feb", 2); (py "Mar", 3); (py "Apr", 4);
    (py "May", 5); (py "Jun", 6); (py "Jul", 7); (py "Aug", 8);
    (py "Sep", 9); (py "Oct", 10); (py "Nov", 11); (py "Dec", 12) ]%Z.

Fixpoint month_of (table : list (str * Z)) (w : str) : option Z :=
  match table with
  | [] => None
  | (abbr, n) :: table' =>
      if starts_with abbr w then Some n else month_of table' w
  end.

(** A parser for texts of the shape [Weekday, D Month YYYY], enough for
    the pages of the examples; anything else is a [ValueError]. *)
Definition parse_dmy (s : str) : parse_result :=
  let s1 := drop_while is_space
              (drop_while (N.eqb 0x2C) (drop_while is_ascii_alpha s)) in
  let d := take_while is_ascii_digit s1 in
  let s2 := drop_while is_space (drop_while is_ascii_digit s1) in
  let m := take_while is_ascii_alpha s2 in
  let s3 := drop_while is_space (drop_while is_ascii_alpha s2) in
  let y := take_while is_ascii_digit s3 in
  match month_of months m with
  | Some mm =>
      if ((1 <=? number d) && (number d <=? 31) && (1 <=? number y)
          && (number y <=? 9999))%Z
      then Parsed (Date (number y) mm (number d))
      else ValueError
  | None => ValueError
  end.

Definition dmy_parser : DateParser :=
  {| today := Date 2025 1 1; parse_on := fun _ => parse_dmy |}.

Definition weekdays : list str :=
  [py "Mon"; py "Tue"; py "Wed"; py "Thu"; py "Fri"; py "Sat"; py "Sun"].

(** A parser that, like dateutil, takes a weekday name where the month
    is expected for a weekday and then fills in the month of the day of
    the call. *)
Definition parse_filling (day : date) (s : str) : parse_result :=
  let s1 := drop_while is_space
              (drop_while (N.eqb 0x2C) (drop_while is_ascii_alpha s)) in
  let d := take_while is_ascii_digit s1 in
  let s2 := drop_while is_space (drop_while is_ascii_digit s1) in
  let m := take_while is_ascii_alpha s2 in
  let s3 := drop_while is_space (drop_while is_ascii_alpha s2) in
  let y := take_while is_ascii_digit s3 in
  if existsb (fun w => starts_with w m) weekdays
  then Parsed (Date (number y) (month day) (number d))
  else parse_dmy s.

Definition filling_parser (day : date) : DateParser :=
  {| today := day; parse_on := parse_filling |}.


(** A page of the expected layout: each [div.colldates] with the text of
    the nearest preceding [div.u-mb-4], the texts of the [div.u-mb-2]
    blocks of its parent, and the texts of its list items. *)
Record section := {
  heading : option str;
  blocks : list str;
  items : list str
}.

Inductive node :=
  | Colldiv (s : section)
  | Container (bs : list str)
  | Text (t : str).

Definition text_of (n : node) : str :=
  match n with Text t => t | _ => [] end.

(** The queries on a page [p]; [p] is what the parser makes of the
    document. *)
Definition page_soup (p : list section) : Soup :=
  {| soup := list section;
     tag := node;
     BeautifulSoup := fun _ => p;
     select_colldates := fun s => Colldiv <$> s;
     find_previous_u_mb_4 := fun n =>
       match n with Colldiv s => Text <$> heading s | _ => None end;
     parent := fun n =>
       match n with Colldiv s => Some (Container (blocks s)) | _ => None end;
     find_all_u_mb_2 := fun n =>
       match n with Container bs => Text <$> bs | _ => [] end;
     select_ul_li := fun n =>
       match n with Colldiv s => Text <$> items s | _ => [] end;
     get_text := text_of;
     get_text_strip := fun n => strip (text_of n);
     get_text_sep_strip := fun n => strip (text_of n) |}.

(** The set iterated in the order its elements were last inserted, and in
    the opposite order: two of the orders a hash table can produce. *)
Program Definition forward_order : SetOrder :=
  {| set_iter := remove_dups |}.
Next Obligation. apply NoDup_remove_dups. Qed.
Next Obligation. apply elem_of_remove_dups. Qed.


(** A server that answers every request with the same document. *)
Definition static_http (html : str) : Http :=
  {| response := str;
     requests_get := fun _ => Return html;
     is_error_status := fun _ => false;
     r_text := fun r => r |}.

(** Uids "u", "uu", "uuu", ... in the order of the draws, and a library
    that cannot make an all-day event of the last day of the year 9999
    nor of the first day of the year 1. *)
Definition sample_uid (k : nat) : str := replicate (S k) 0x75.

Global Instance sample_uid_inj : Inj (=) (=) sample_uid.
Proof.
  intros j k Heq. apply (f_equal length) in Heq.
  unfold sample_uid in Heq. rewrite !length_replicate in Heq. lia.
Qed.

Definition ends_of_range (d : date) : bool :=
  ((year d =? 9999) && (month d =? 12) && (day d =? 31)
   || (year d =? 1) && (month d =? 1) && (day d =? 1))%Z.

Definition no_alarm : IcsLib :=
  {| DisplayAlarm := None; uid_gen := sample_uid;
     uid_gen_inj := sample_uid_inj; all_day_raises := ends_of_range |}.

(** A library whose [DisplayAlarm] does not take the keywords of line
    103, and raises. *)
Definition alarm_refused : IcsLib :=
  {| DisplayAlarm := Some (fun _ _ => None); uid_gen := sample_uid;
     uid_gen_inj := sample_uid_inj; all_day_raises := ends_of_range |}.

(** The set iterated from the shortest uid to the longest, and from the
    longest to the shortest. *)
Fixpoint insert_by_uid (x : str * Event) (l : list (str * Event))
    : list (str * Event) :=
  match l with
  | [] => [x]
  | y :: l' =>
      if (length y.1 <? length x.1)%nat then y :: insert_by_uid x l'
      else x :: l
  end.

Definition by_uid_length (l : list (str * Event)) : list (str * Event) :=
  foldr insert_by_uid [] l.

Lemma by_uid_length_Permutation l : by_uid_length l ≡ₚ l.
Proof.
  induction l as [|x l IH]; simpl; [done|]. rewrite <- IH at 2.
  generalize (by_uid_length l). intros k.
  induction k as [|y k IHk]; simpl; [done|].
  destruct (length y.1 <? length x.1)%nat; [|done].
  rewrite IHk. apply Permutation_swap.
Qed.

Definition short_first : EventOrder :=
  {| events_iter := fun m => by_uid_length (map_to_list m);
     events_iter_perm := fun m => by_uid_length_Permutation _ |}.

Lemma long_first_Permutation (m : gmap str Event) :
  reverse (by_uid_length (map_to_list m)) ≡ₚ map_to_list m.
Proof. by rewrite reverse_Permutation, by_uid_length_Permutation. Qed.

Definition long_first : EventOrder :=
  {| events_iter := fun m => reverse (by_uid_length (map_to_list m));
     events_iter_perm := long_first_Permutation |}.

(** Two records of two bin types, in date order. *)
Definition two_records : list record :=
  [ (py "Household waste", Date 2025 1 10);
    (py "Mixed recycling", Date 2025 1 17) ].

(** One section headed "Household waste", with a next-collection block
    and one list item. *)
Definition household_page : list section :=
  [ {| heading := Some (py "Household waste");
       blocks := [py "Next collection Friday, 10 January 2025"];
       items := [py "Saturday, 7 February 2025"] |} ].


(** One section whose list item names no month. *)
Definition monthless_page : list section :=
  [ {| heading := Some (py "Household waste");
       blocks := [];
       items := [py "Tuesday, 7 Mon 2025"] |} ].

Definition monthless_html : str :=
  py "<div class='u-mb-4'>Household waste</div><div><div class='colldates'><ul><li>Tuesday, 7 Mon 2025</li></ul></div></div>".


(** The document of [household_page]. *)
Definition household_html : str :=
  py "<div class='u-mb-4'>Household waste</div><div><div class='u-mb-2'>Next collection Friday, 10 January 2025</div><div class='colldates'><ul><li>Saturday, 7 February 2025</li></ul></div></div>".

(** Blocks of a container: a heading line, a next-collection block
    without a date, and a second next-collection block with one. *)
Definition intro_block : node := Text (py "Your collections").
Definition tbd_block : node := Text (py "Next collection TBD").
Definition dated_block : node :=
  Text (py "Next collection Friday, 10 January 2025").

(** A page whose only section has no heading before it. *)
Definition headingless_page : list section :=
  [ {| heading := None;
       blocks := [py "Next collection Friday, 10 January 2025"];
       items := [] |} ].

(** A file system in which paths are kept as written and every write
    succeeds, and a serializer that lists the titles of the events. *)
Definition plain_fs : FileSystem :=
  {| Path := fun p => p; write_ok := fun _ _ => true;
     write_residue := fun _ _ => None |}.

(** A file system whose disk is full: files can be opened for writing
    and no more. *)
Definition full_fs : FileSystem :=
  {| Path := fun p => p; write_ok := fun _ _ => false;
     write_residue := fun _ _ => Some [] |}.

Definition titles_serializer : IcsSerializer :=
  {| serialize := fun cal =>
       mjoin (name <$> (by_uid_length (map_to_list (events cal))).*2) |}.

(** A server that answers every request with an error status. *)
Definition failing_http : Http :=
  {| response := str;
     requests_get := fun _ => Return [];
     is_error_status := fun _ => true;
     r_text := fun r => r |}.

Definition empty_world : Cli.world :=
  {| Cli.console := []; Cli.files := ∅ |}.

(** A world in which an earlier run has left a calendar file. *)
Definition stale_world : Cli.world :=
  {| Cli.console := [];
     Cli.files := {[ py "collections.ics" := py "BEGIN:VCALENDAR" ]} |}.

(** The arguments [--url https://example.org/bins --verbose]. *)
Definition bins_args : Cli.Namespace :=
  {| Cli.url := Some (py "https://example.org/bins");
     Cli.output := py "collections.ics";
     Cli.verbose := true |}.

End Sample.


(** * Properties *)

(** ** The order of dates *)

Lemma date_ltb_lex (a b : date) :
  date_ltb a b = true <->
  (year a < year b \/
   (year a = year b /\
    (month a < month b \/ (month a = month b /\ day a < day b))))%Z.
Proof.
  unfold date_ltb, date_compare.
  destruct (Z.compare_spec (year a) (year b));
    destruct (Z.compare_spec (month a) (month b));
    destruct (Z.compare_spec (day a) (day b));
    split; intros; try discriminate; try reflexivity; lia.
Qed.

Lemma date_le_lex (a b : date) :
  date_le a b <->
  (year a < year b \/
   (year a = year b /\
    (month a < month b \/ (month a = month b /\ day a <= day b))))%Z.
Proof.
  unfold date_le. rewrite <- not_true_iff_false, date_ltb_lex. lia.
Qed.

Global Instance date_le_trans : Transitive date_le.
Proof. intros a b c. rewrite !date_le_lex. lia. Qed.

Global Instance date_le_total : Total date_le.
Proof. intros a b. rewrite !date_le_lex. lia. Qed.

Global Instance date_le_antisym : AntiSymm (=) date_le.
Proof.
  intros [ya ma da] [yb mb db]. rewrite !date_le_lex. simpl.
  intros ? ?. f_equal; lia.
Qed.

Lemma date_ltb_le (a b : date) : date_ltb a b = true -> date_le a b.
Proof. rewrite date_le_lex, date_ltb_lex. lia. Qed.

Global Instance by_date_trans : Transitive by_date.
Proof. intros a b c. unfold by_date. apply date_le_trans. Qed.

(** ** The stable sort *)

Lemma insert_by_date_Permutation x l : insert_by_date x l ≡ₚ x :: l.
Proof.
  induction l as [|y l IH]; simpl; [done|].
  destruct (date_ltb y.2 x.2); [|done].
  rewrite IH. apply Permutation_swap.
Qed.

Lemma sorted_by_date_Permutation l : sorted_by_date l ≡ₚ l.
Proof.
  induction l as [|x l IH]; simpl; [done|].
  by rewrite insert_by_date_Permutation, IH.
Qed.

Lemma insert_by_date_HdRel a x l :
  by_date a x -> HdRel by_date a l -> HdRel by_date a (insert_by_date x l).
Proof.
  intros Hax Hal. destruct l as [|y l]; simpl.
  - by constructor.
  - destruct (date_ltb y.2 x.2); constructor; [by inversion Hal|done].
Qed.

Lemma insert_by_date_Sorted x l :
  Sorted by_date l -> Sorted by_date (insert_by_date x l).
Proof.
  induction 1 as [|y l Hl IH Hy]; simpl.
  - by repeat constructor.
  - destruct (date_ltb y.2 x.2) eqn:Hlt.
    + constructor; [done|].
      apply insert_by_date_HdRel; [|done]. by apply date_ltb_le.
    + constructor; [by constructor|]. by constructor.
Qed.

Lemma sorted_by_date_Sorted l : Sorted by_date (sorted_by_date l).
Proof.
  induction l as [|x l IH]; simpl; [constructor|].
  by apply insert_by_date_Sorted.
Qed.






(** ** The regular-expression engine *)

Section Engine.

(** A successful match is a prefix of the text it was tried on. *)
Lemma greedy_prefix p (k : str -> option str) :
  (forall s m, k s = Some m -> exists post, s = m ++ post) ->
  forall s lo hi m,
    Re.greedy p lo hi k s = Some m -> exists post, s = m ++ post.
Proof.
  intros Hk s. induction s as [|c s IH]; intros lo hi m; simpl.
  - destruct lo; [apply Hk|done].
  - destruct (p c && Re.room hi).
    + destruct (Re.greedy p (Nat.pred lo) (Re.less hi) k s) as [m'|] eqn:Hg.
      * intros [= <-]. destruct (IH _ _ _ Hg) as [post ->]. by exists post.
      * destruct lo; [apply Hk|done].
    + destruct lo; [apply Hk|done].
Qed.

Lemma match_here_prefix pat s m :
  Re.match_here pat s = Some m -> exists post, s = m ++ post.
Proof.
  revert s m. induction pat as [|it pat IH]; intros s m; simpl.
  - intros [= <-]. by exists s.
  - by apply greedy_prefix.
Qed.

(** [search] returns the leftmost match: the text splits around it, and
    no match begins at an earlier offset. *)
Lemma search_from_leftmost pat pos s m :
  Re.search_from pat pos s = Some m ->
  exists pre post,
    s = pre ++ Re.group0 m ++ post /\
    Re.m_start m = (pos + length pre)%nat /\
    Re.match_here pat (Re.group0 m ++ post) = Some (Re.group0 m) /\
    forall k, (k < length pre)%nat -> Re.match_here pat (drop k s) = None.
Proof.
  revert pos. induction s as [|c s IH]; intros pos; simpl.
  - destruct (Re.match_here pat []) as [g|] eqn:Hg; [|done].
    intros [= <-]; simpl. destruct (match_here_prefix _ _ _ Hg) as [post Hp].
    exists [], post. simpl. rewrite <- Hp.
    split_and!; [done|lia|done|intros; lia].
  - destruct (Re.match_here pat (c :: s)) as [g|] eqn:Hg.
    + intros [= <-]; simpl. destruct (match_here_prefix _ _ _ Hg) as [post Hp].
      exists [], post. simpl. rewrite <- Hp.
      split_and!; [done|lia|done|intros; lia].
    + intros Hs. destruct (IH _ Hs) as (pre & post & -> & Hst & Hm & Hno).
      exists (c :: pre), post. simpl. split_and!; [done|lia|done|].
      intros [|k] Hk; simpl; [done|]. apply Hno. lia.
Qed.

Lemma search_leftmost pat s m :
  Re.search pat s = Some m ->
  exists pre post,
    s = pre ++ Re.group0 m ++ post /\
    Re.m_start m = length pre /\
    Re.match_here pat (Re.group0 m ++ post) = Some (Re.group0 m) /\
    forall k, (k < length pre)%nat -> Re.match_here pat (drop k s) = None.
Proof. apply search_from_leftmost. Qed.

(** [search] fails only when no offset of the text starts a match. *)
Lemma search_from_None pat pos s :
  Re.search_from pat pos s = None ->
  forall k, (k <= length s)%nat -> Re.match_here pat (drop k s) = None.
Proof.
  revert pos. induction s as [|c s IH]; intros pos; simpl.
  - destruct (Re.match_here pat []) eqn:Hg; [done|].
    intros _ k Hk. by replace k with 0%nat by lia.
  - destruct (Re.match_here pat (c :: s)) eqn:Hg; [done|].
    intros Hs [|k] Hk; simpl; [done|]. eapply IH; [done|lia].
Qed.

(** What the engine returns is in the language of the pattern. *)
Lemma greedy_sound p (k : str -> option str) (Q : str -> Prop) :
  (forall s m, k s = Some m -> Q m) ->
  forall s lo hi m,
    Re.greedy p lo hi k s = Some m ->
    exists w m', m = w ++ m' /\ Forall (fun c => p c = true) w /\
                 (lo <= length w)%nat /\ Re.within hi (length w) /\ Q m'.
Proof.
  intros Hk s. induction s as [|c s IH]; intros lo hi m; simpl.
  - destruct lo; [|done]. intros Hm%Hk.
    exists [], m. split_and!; [done|constructor|done| |done].
    destruct hi; simpl; lia.
  - assert (match lo with O => k (c :: s) | S _ => None end = Some m ->
            exists w m', m = w ++ m' /\ Forall (fun c => p c = true) w /\
              (lo <= length w)%nat /\ Re.within hi (length w) /\ Q m')
      as Hstop.
    { destruct lo; [|done]. intros Hm%Hk.
      exists [], m. split_and!; [done|constructor|done| |done].
      destruct hi; simpl; lia. }
    destruct (p c) eqn:Hc; [|exact Hstop].
    destruct (Re.room hi) eqn:Hr; [|exact Hstop]. simpl.
    destruct (Re.greedy p (Nat.pred lo) (Re.less hi) k s) as [m0|] eqn:Hg;
      [|exact Hstop].
    intros [= <-].
    destruct (IH _ _ _ Hg) as (w & m' & -> & Hw & Hlo & Hhi & Hq).
    exists (c :: w), m'. split_and!; [done|by constructor|simpl; lia| |done].
    destruct hi as [[|h]|]; simpl in *; [done|lia|done].
Qed.

Lemma match_here_sound pat s m :
  Re.match_here pat s = Some m -> Re.matches pat m.
Proof.
  revert s m. induction pat as [|it pat IH]; intros s m; simpl.
  - intros [= <-]. constructor.
  - intros Hg.
    destruct (greedy_sound _ _ (Re.matches pat) IH _ _ _ _ Hg)
      as (w & m' & -> & Hw & Hlo & Hhi & Hm).
    by constructor.
Qed.

(** The engine finds a match wherever the language has one. *)
Lemma greedy_complete p (k : str -> option str) w :
  Forall (fun c => p c = true) w ->
  forall lo hi rest,
    (lo <= length w)%nat -> Re.within hi (length w) ->
    is_Some (k rest) ->
    is_Some (Re.greedy p lo hi k (w ++ rest)).
Proof.
  induction 1 as [|c w Hc Hw IH]; intros lo hi rest Hlo Hhi Hk; simpl in *.
  - assert (lo = 0)%nat as -> by lia.
    destruct rest as [|c s]; simpl; [done|].
    destruct (p c && Re.room hi); [|done].
    destruct (Re.greedy _ _ _ _ _); [by eexists|done].
  - rewrite Hc. assert (Re.room hi = true) as ->.
    { destruct hi as [[|h]|]; simpl in *; [lia|done|done]. }
    simpl. destruct (IH (Nat.pred lo) (Re.less hi) rest) as [m ->];
      [lia| |done|done].
    destruct hi as [h|]; simpl in *; [lia|done].
Qed.

Lemma match_here_complete pat m post :
  Re.matches pat m -> is_Some (Re.match_here pat (m ++ post)).
Proof.
  intros Hm. revert post.
  induction Hm as [|it pat w m Hw Hlo Hhi _ IH]; intros post; simpl.
  - done.
  - rewrite <- app_assoc. by apply greedy_complete.
Qed.

(** [search] fails exactly on the texts in which the pattern matches
    nowhere. *)
Lemma search_None_iff pat s : Re.search pat s = None <-> ~ Re.occurs pat s.
Proof.
  split.
  - intros Hs (pre & m & post & -> & Hm).
    pose proof (search_from_None _ _ _ Hs (length pre)) as Hno.
    rewrite drop_app_length in Hno.
    destruct (match_here_complete pat m post Hm) as [m' Hm'].
    rewrite Hno in Hm'; [done|]. rewrite length_app. lia.
  - intros Hno. destruct (Re.search pat s) as [m|] eqn:Hs; [|done].
    destruct (search_leftmost _ _ _ Hs) as (pre & post & -> & _ & Hm & _).
    exfalso. apply Hno. exists pre, (Re.group0 m), post.
    split; [done|]. by eapply match_here_sound.
Qed.

(** The match [search] returns is in the language, and no text of the
    language begins before it. *)
Lemma search_first pat s m :
  Re.search pat s = Some m ->
  exists pre post,
    s = pre ++ Re.group0 m ++ post /\
    Re.m_start m = length pre /\
    Re.matches pat (Re.group0 m) /\
    forall pre' m' post',
      s = pre' ++ m' ++ post' -> Re.matches pat m' ->
      (length pre <= length pre')%nat.
Proof.
  intros Hs.
  destruct (search_leftmost _ _ _ Hs) as (pre & post & Heq & Hst & Hm & Hno).
  exists pre, post. split_and!; [done|done|by eapply match_here_sound|].
  intros pre' m' post' Heq' Hm'.
  destruct (decide (length pre <= length pre')%nat) as [|Hlt]; [done|].
  exfalso. specialize (Hno (length pre') ltac:(lia)).
  rewrite Heq', drop_app_length in Hno.
  destruct (match_here_complete pat m' post' Hm') as [? Hsome].
  by rewrite Hno in Hsome.
Qed.

End Engine.

(** ** The extractor *)

Section Extractor.
Context {U : UnicodeDB} {P : DateParser} {S : Soup}.

Lemma contribution_length b text : (length (contribution b text) <= 1)%nat.
Proof. unfold contribution. destruct (_extract_date text); simpl; lia. Qed.

Lemma next_contribution_length b divs :
  (length (next_contribution b divs) <= 1)%nat.
Proof.
  induction divs as [|div rest IH]; simpl; [lia|].
  destruct (contains MARKER (get_text div)); [apply contribution_length|done].
Qed.

Lemma scan_next_collections v b divs st :
  collections (scan_next v b divs st)
  = collections st ++ next_contribution b divs.
Proof.
  induction divs as [|div rest IH]; simpl.
  - by rewrite app_nil_r.
  - destruct (contains MARKER (get_text div)); [|done].
    unfold contribution. destruct (_extract_date (get_text div)).
    + by destruct v.
    + by rewrite app_nil_r.
Qed.

(** The blocks after the first one that holds the marker play no part. *)
Lemma scan_next_break v b pre d post st :
  Forall (fun x => contains MARKER (get_text x) = false) pre ->
  contains MARKER (get_text d) = true ->
  scan_next v b (pre ++ d :: post) st = scan_next v b [d] st.
Proof.
  intros Hpre Hd. induction Hpre as [|x pre Hx _ IH]; simpl.
  - by rewrite Hd.
  - by rewrite Hx, IH; simpl; rewrite Hd.
Qed.

Lemma future_item_collections b st li :
  collections (future_item b st li)
  = collections st ++ contribution b (get_text_sep_strip li).
Proof.
  unfold future_item, contribution.
  destruct (_extract_date (get_text_sep_strip li)); simpl; [done|].
  by rewrite app_nil_r.
Qed.

Lemma future_items_collections b lis st :
  collections (fold_left (future_item b) lis st)
  = collections st
    ++ (lis ≫= fun li => contribution b (get_text_sep_strip li)).
Proof.
  revert st. induction lis as [|li lis IH]; intros st; simpl.
  - by rewrite app_nil_r.
  - by rewrite IH, future_item_collections, <- app_assoc.
Qed.

Lemma future_items_stdout b lis st :
  stdout (fold_left (future_item b) lis st) = stdout st.
Proof.
  revert st. induction lis as [|li lis IH]; intros st; simpl; [done|].
  rewrite IH. unfold future_item.
  by destruct (_extract_date (get_text_sep_strip li)).
Qed.

Lemma section_step_collections v st colldiv :
  collections (section_step v st colldiv)
  = collections st ++ section_records colldiv.
Proof.
  unfold section_step, section_records.
  rewrite future_items_collections.
  destruct (parent colldiv).
  - by rewrite scan_next_collections, <- app_assoc.
  - done.
Qed.

Lemma sections_collections v cs st :
  collections (fold_left (section_step v) cs st)
  = collections st ++ (cs ≫= section_records).
Proof.
  revert st. induction cs as [|c cs IH]; intros st; simpl.
  - by rewrite app_nil_r.
  - by rewrite IH, section_step_collections, <- app_assoc.
Qed.

(** The records accumulated over a whole document. *)
Lemma run_sections_collections v s :
  collections (run_sections v s) = select_colldates s ≫= section_records.
Proof. unfold run_sections. by rewrite sections_collections. Qed.

(** Nothing is printed unless [verbose] is set. *)
Lemma scan_next_quiet b divs st :
  stdout (scan_next false b divs st) = stdout st.
Proof.
  induction divs as [|div rest IH]; simpl; [done|].
  destruct (contains MARKER (get_text div)); [|done].
  by destruct (_extract_date (get_text div)).
Qed.

Lemma sections_quiet cs st :
  stdout (fold_left (section_step false) cs st) = stdout st.
Proof.
  revert st. induction cs as [|c cs IH]; intros st; simpl; [done|].
  rewrite IH. unfold section_step. rewrite future_items_stdout.
  destruct (parent c); [by rewrite scan_next_quiet|done].
Qed.

Lemma run_sections_quiet s : stdout (run_sections false s) = [].
Proof. unfold run_sections. by rewrite sections_quiet. Qed.

(** The returned list is the sorted iteration of the set of accumulated
    records, whatever [verbose] is. *)
Lemma extract_records {O : SetOrder} v html :
  (extract v html).1
  = sorted_by_date
      (set_iter (select_colldates (BeautifulSoup html) ≫= section_records)).
Proof.
  unfold extract, scrape_soup. simpl. by rewrite run_sections_collections.
Qed.

Lemma StronglySorted_lookup {A} (R : relation A) l i j a b :
  StronglySorted R l -> (i < j)%nat ->
  l !! i = Some a -> l !! j = Some b -> R a b.
Proof.
  intros Hl. revert i j. induction Hl as [|x l Hl IH Hx]; intros i j Hij.
  - done.
  - destruct i as [|i], j as [|j]; simpl; try lia.
    + intros [= <-] Hb. eapply Forall_forall; [done|].
      by eapply list_elem_of_lookup_2.
    + apply IH. lia.
Qed.

End Extractor.

(** ** The claims on the extractor *)

(** C3. The list the extractor returns is sorted by date, non-decreasing:
    of any two positions, the earlier one holds the earlier or the same
    date. *)
Theorem extract_sorted_by_date
    {U : UnicodeDB} {P : DateParser} {S : Soup} {O : SetOrder}
    (verbose : bool) (html : str) :
  let out := (extract verbose html).1 in
  Sorted by_date out /\
  forall i j a b,
    (i <= j)%nat -> out !! i = Some a -> out !! j = Some b ->
    date_le a.2 b.2.
Proof.
  intros out. assert (Sorted by_date out) as Hs.
  { unfold out. rewrite extract_records. apply sorted_by_date_Sorted. }
  split; [done|]. intros i j a b Hij Ha Hb.
  destruct (decide (i = j)) as [->|Hne].
  - rewrite Ha in Hb. injection Hb as <-. unfold date_le.
    apply not_true_iff_false. rewrite date_ltb_lex. lia.
  - apply (StronglySorted_lookup by_date out i j); [|lia|done|done].
    by apply Sorted_StronglySorted; [apply _|].
Qed.

(** C4. The list the extractor returns holds no (bin_type, date) pair
    twice: two positions with the same pair are the same position, and
    the list holds exactly the pairs that were accumulated, however often
    each was mentioned. *)
Theorem extract_no_duplicates
    {U : UnicodeDB} {P : DateParser} {S : Soup} {O : SetOrder}
    (verbose : bool) (html : str) :
  let out := (extract verbose html).1 in
  NoDup out /\
  (forall i j bd, out !! i = Some bd -> out !! j = Some bd -> i = j) /\
  (forall bd,
     bd ∈ out <->
     bd ∈ collections (run_sections verbose (BeautifulSoup html))).
Proof.
  intros out. assert (NoDup out) as Hn.
  { unfold out, extract, scrape_soup; simpl.
    rewrite sorted_by_date_Permutation. apply set_iter_NoDup. }
  split_and!; [done|by apply NoDup_alt|].
  intros bd. unfold out, extract, scrape_soup; simpl.
  rewrite sorted_by_date_Permutation. apply set_iter_elem.
Qed.

(** C9. The verbose flag changes what is printed and nothing else: the
    list returned with the flag set is the list returned without it,
    nothing is printed without it, and [_scrape] raises with the flag set
    exactly when it raises without it. *)
Theorem verbose_does_not_change_records
    {U : UnicodeDB} {P : DateParser} {S : Soup} {W : Http} {O : SetOrder}
    (url html : str) :
  (extract true html).1 = (extract false html).1 /\
  (extract false html).2 = [] /\
  match _scrape url true, _scrape url false with
  | Return a, Return b => a.1 = b.1
  | Raise e, Raise e' => e = e'
  | _, _ => False
  end.
Proof.
  split_and!.
  - by rewrite !extract_records.
  - unfold extract, scrape_soup; simpl. apply run_sections_quiet.
  - unfold _scrape. destruct (requests_get url) as [r|e]; [|done].
    destruct (is_error_status r); [done|]. by rewrite !extract_records.
Qed.




(** C5. The scan for the next-collection block ends at the first block
    that contains "Next collection": the blocks after it do not change
    the result, the section gains the record of that block if its date is
    extracted and nothing if it is not, and in no case more than one
    record. *)
Theorem next_collection_scan_stops_at_first_marker
    {U : UnicodeDB} {P : DateParser} {S : Soup}
    (verbose : bool) (bin_type : str) (pre : list tag) (d : tag)
    (post : list tag) (st : scrape_state) :
  Forall (fun x => contains MARKER (get_text x) = false) pre ->
  contains MARKER (get_text d) = true ->
  (forall post',
     scan_next verbose bin_type (pre ++ d :: post) st
     = scan_next verbose bin_type (pre ++ d :: post') st) /\
  collections (scan_next verbose bin_type (pre ++ d :: post) st)
  = collections st ++ contribution bin_type (get_text d) /\
  (_extract_date (get_text d) = None ->
   scan_next verbose bin_type (pre ++ d :: post) st = st) /\
  (forall divs, exists recs,
     collections (scan_next verbose bin_type divs st)
     = collections st ++ recs /\ (length recs <= 1)%nat).
Proof.
  intros Hpre Hd. split_and!.
  - intros post'. by rewrite !scan_next_break.
  - rewrite scan_next_collections.
    f_equal. clear -Hpre Hd. induction Hpre as [|x pre Hx _ IH]; simpl.
    + by rewrite Hd.
    + by rewrite Hx.
  - intros Hnone. rewrite scan_next_break by done. simpl.
    by rewrite Hd, Hnone.
  - intros divs. exists (next_contribution bin_type divs).
    split; [apply scan_next_collections|apply next_contribution_length].
Qed.

(** C6. Extracting the date of a fragment yields no date, and no error,
    when the date pattern matches nowhere in the text or the parser
    rejects the matched text with ValueError or OverflowError, and only
    then; such a fragment leaves the accumulated records as they are and
    the scan goes on with the remaining list items.  "Next collection
    TBD" is such a fragment. *)
Theorem extract_date_drops_unparsable
    {U : UnicodeDB} {P : DateParser} {S : Soup} (text : str) :
  (_extract_date text = None <->
   ~ Re.occurs DATE_RE text \/
   exists m, Re.search DATE_RE text = Some m /\
     (dtparse (Re.group0 m) = ValueError \/
      dtparse (Re.group0 m) = OverflowError)) /\
  _extract_date (py "Next collection TBD") = None /\
  (forall bin_type li lis st,
     _extract_date (get_text_sep_strip li) = None ->
     fold_left (future_item bin_type) (li :: lis) st
     = fold_left (future_item bin_type) lis st) /\
  (forall verbose bin_type div rest st,
     contains MARKER (get_text div) = true ->
     _extract_date (get_text div) = None ->
     scan_next verbose bin_type (div :: rest) st = st).
Proof.
  split_and!.
  - rewrite <- search_None_iff. unfold _extract_date.
    destruct (Re.search DATE_RE text) as [m|].
    + destruct (dtparse (Re.group0 m)) eqn:Hp; split; try done.
      * intros [|(m' & [= <-] & [|])]; congruence.
      * intros _. right. exists m. auto.
      * intros _. right. exists m. auto.
    + split; auto.
  - reflexivity.
  - intros b li lis st Hnone. simpl. unfold future_item at 2.
    by rewrite Hnone.
  - intros v b div rest st Hm Hnone. simpl. by rewrite Hm, Hnone.
Qed.

(** C10. A fragment adds at most one record.  The date comes from the
    leftmost match of the date pattern alone: the text splits around
    that match, no text of the pattern begins before it, and the parser
    is given the matched text and nothing after it.  A second date in
    the same fragment is not read. *)
Theorem fragment_contributes_first_match_only
    {U : UnicodeDB} {P : DateParser} {S : Soup} (text : str) :
  match Re.search DATE_RE text with
  | None => ~ Re.occurs DATE_RE text /\ _extract_date text = None
  | Some m =>
      (exists pre post,
         text = pre ++ Re.group0 m ++ post /\
         Re.m_start m = length pre /\
         Re.matches DATE_RE (Re.group0 m) /\
         forall pre' m' post',
           text = pre' ++ m' ++ post' -> Re.matches DATE_RE m' ->
           (length pre <= length pre')%nat) /\
      _extract_date text
      = match dtparse (Re.group0 m) with
        | Parsed d => Some d
        | _ => None
        end
  end /\
  (forall bin_type, length (contribution bin_type text) <= 1)%nat /\
  (forall bin_type st li,
     collections (future_item bin_type st li)
     = collections st ++ contribution bin_type (get_text_sep_strip li)) /\
  (forall verbose bin_type divs st, exists recs,
     collections (scan_next verbose bin_type divs st)
     = collections st ++ recs /\ (length recs <= 1)%nat) /\
  _extract_date (py "Monday, 6 January 2025 then Tuesday, 7 January 2025")
  = match dtparse (py "Monday, 6 January 2025") with
    | Parsed d => Some d
    | _ => None
    end.
Proof.
  split_and!.
  - unfold _extract_date.
    destruct (Re.search DATE_RE text) as [m|] eqn:Hs.
    + split; [by apply search_first|].
      by destruct (dtparse (Re.group0 m)).
    + split; [by apply search_None_iff|done].
  - intros b. apply contribution_length.
  - intros b st li. apply future_item_collections.
  - intros v b divs st. exists (next_contribution b divs).
    split; [apply scan_next_collections|apply next_contribution_length].
  - reflexivity.
Qed.

(** ** Strings *)

Lemma drop_while_head p s c :
  head (drop_while p s) = Some c -> p c = false.
Proof.
  induction s as [|x s IH]; simpl; [done|].
  destruct (p x) eqn:Hx; [done|]. simpl. by intros [= <-].
Qed.

Lemma drop_while_last p s c :
  last (drop_while p s) = Some c -> last s = Some c.
Proof.
  induction s as [|x s IH]; simpl; [done|].
  destruct (p x); [|done]. intros Hl. rewrite last_cons, (IH Hl). done.
Qed.

Lemma strip_trimmed s : trimmed (strip s).
Proof.
  unfold trimmed, strip, rstrip, lstrip. split; intros c.
  - rewrite head_reverse. intros Hl%drop_while_last.
    rewrite last_reverse in Hl. by apply drop_while_head in Hl.
  - rewrite last_reverse. apply drop_while_head.
Qed.

Lemma drop_while_id p s :
  (forall c, head s = Some c -> p c = false) -> drop_while p s = s.
Proof. destruct s as [|x s]; simpl; [done|]. intros Hh. by rewrite Hh. Qed.

Lemma strip_id s : trimmed s -> strip s = s.
Proof.
  intros [Hh Hl]. unfold strip, rstrip, lstrip.
  rewrite (drop_while_id _ s) by done.
  rewrite drop_while_id; [apply reverse_involutive|].
  intros c. rewrite head_reverse. apply Hl.
Qed.

Section Lowercase.
Context {U : UnicodeDB}.
Hypothesis lower_stable :
  forall before c after, Forall lower_fixed (lower_ucs4 before c after).

Lemma lower_from_Forall before s : Forall lower_fixed (lower_from before s).
Proof using lower_stable.
  revert before. induction s as [|c s IH]; intros before; simpl; [done|].
  apply Forall_app. split; [apply lower_stable|apply IH].
Qed.

Lemma lower_from_fixed before s :
  Forall lower_fixed s -> lower_from before s = s.
Proof.
  intros Hs. revert before.
  induction Hs as [|c s [Hc1 Hc2] _ IH]; intros before; simpl; [done|].
  unfold lower_ucs4. apply N.eqb_neq in Hc1. by rewrite Hc1, Hc2, IH.
Qed.

End Lowercase.

(** ASCII text without capital letters is left alone by lower-casing. *)
Lemma plain_ascii_lower_fixed {U : UnicodeDB} (s : str) :
  forallb (fun c => (c <? 0x80) && negb (is_ascii_upper c)) s = true ->
  Forall lower_fixed s.
Proof.
  induction s as [|c s IH]; simpl; [done|].
  intros [[Hc Hu%negb_true_iff]%andb_true_iff Hs]%andb_true_iff.
  constructor; [|by apply IH].
  unfold lower_fixed, to_lower_full, SIGMA. rewrite Hc, Hu.
  apply N.ltb_lt in Hc. split; [lia|done].
Qed.

(** The sample database satisfies the stability of lower-casing. *)
Lemma ascii_db_lower_stable before c after :
  Forall (@lower_fixed Sample.ascii_db)
    (@lower_ucs4 Sample.ascii_db before c after).
Proof.
  unfold lower_ucs4, lower_fixed, to_lower_full, SIGMA, is_ascii_upper.
  destruct (N.eqb_spec c 0x3A3) as [->|Hc].
  - destruct (final_sigma before after); repeat constructor; done.
  - destruct (N.ltb_spec c 0x80) as [Hlt|Hge]; simpl.
    + repeat constructor.
      * destruct (_ && _); lia.
      * destruct ((0x41 <=? c) && (c <=? 0x5A)) eqn:Hu.
        -- apply andb_true_iff in Hu as [?%N.leb_le ?%N.leb_le].
           replace (c + 0x20 <? 0x80) with true
             by (symmetry; apply N.ltb_lt; lia).
           replace (c + 0x20 <=? 0x5A) with false
             by (symmetry; apply N.leb_gt; lia).
           by rewrite andb_false_r.
        -- replace (c <? 0x80) with true by (symmetry; apply N.ltb_lt; lia).
           by rewrite Hu.
    + repeat constructor; [done|].
      by replace (c <? 0x80) with false by (symmetry; apply N.ltb_ge; lia).
Qed.

(** ** The claims on the event mapper *)

Section Mapper.
Context {U : UnicodeDB} {L : IcsLib}.

(** A round makes the event of its record, or raises. *)
Lemma event_of_Some bd ev : event_of bd = Some ev -> ev = make_event bd.
Proof.
  unfold event_of. destruct (all_day_raises bd.2); [done|].
  destruct (new_alarms (title bd.1)); [|done]. by intros [= <-].
Qed.


(** What the loop has added when it ends, from a calendar that holds
    none of the uids still to be drawn. *)
Lemma build_from_Mapped k evs cal cal' :
  (forall j, (k <= j)%nat -> events cal !! uid_gen j = None) ->
  build_from k evs cal = Mapped cal' ->
  Forall (fun bd : record => event_of bd = Some (make_event bd)) evs /\
  size (events cal') = (size (events cal) + length evs)%nat /\
  (forall u ev,
     events cal' !! u = Some ev <->
     events cal !! u = Some ev \/
     exists i bd, evs !! i = Some bd /\ u = uid_gen (k + i) /\
                  ev = make_event bd).
Proof.
  revert k cal. induction evs as [|bd rest IH]; intros k cal Hfresh; simpl.
  - intros [= <-]. split_and!; [done|symmetry; apply Nat.add_0_r|].
    intros u ev. split; [auto|].
    by intros [|(i & ? & ? & _)].
  - destruct (event_of bd) as [e|] eqn:Hok; [|done]. intros Hb.
    pose proof (event_of_Some _ _ Hok) as ->.
    assert (events (add (uid_gen k) (make_event bd) cal)
            = <[uid_gen k := make_event bd]> (events cal)) as Hadd.
    { unfold add. simpl. by rewrite (Hfresh k). }
    apply IH in Hb as (Hrest & Hsize & Hin).
    + rewrite Hadd in Hsize, Hin.
      rewrite map_size_insert_None in Hsize by (by apply Hfresh).
      split_and!;
        [by constructor|rewrite Hsize; simpl; by rewrite Nat.add_succ_r|].
      intros u ev. rewrite Hin, lookup_insert_Some. split.
      * intros [[[<- <-]|[Hne Hu]]|(i & r & Hr & -> & ->)].
        -- right. exists 0%nat, bd. by rewrite Nat.add_0_r.
        -- by left.
        -- right. exists (S i), r. split; [done|].
           by rewrite Nat.add_succ_r.
      * intros [Hu|(i & r & Hr & -> & ->)].
        -- left. right. split; [|done]. intros <-.
           by rewrite Hfresh in Hu.
        -- destruct i as [|i]; simpl in Hr.
           ++ injection Hr as <-. left. left. by rewrite Nat.add_0_r.
           ++ right. exists i, r. split; [done|].
              by rewrite Nat.add_succ_r.
    + intros j Hj. unfold Nat.succ in Hj.
      rewrite Hadd, lookup_insert_ne; [apply Hfresh; lia|].
      intros Heq%uid_gen_inj. lia.
Qed.

(** Where the loop stops when it raises. *)
Lemma build_from_MapRaise k evs cal bd :
  build_from k evs cal = MapRaise bd ->
  exists pre post,
    evs = pre ++ bd :: post /\ event_of bd = None /\
    Forall (fun r : record => event_of r = Some (make_event r)) pre.
Proof.
  revert k cal. induction evs as [|x rest IH]; intros k cal; simpl; [done|].
  destruct (event_of x) as [e|] eqn:Hok.
  - intros (pre & post & -> & Hbd & Hpre)%IH.
    exists (x :: pre), post. split_and!; try done. constructor; [|done].
    by rewrite Hok, (event_of_Some _ _ Hok).
  - intros [= <-]. by exists [], rest.
Qed.

Lemma build_calendar_Mapped evs cal :
  _build_calendar evs = Mapped cal ->
  Forall (fun bd : record => event_of bd = Some (make_event bd)) evs /\
  size (events cal) = length evs /\
  (forall u ev,
     events cal !! u = Some ev <->
     exists i bd, evs !! i = Some bd /\ u = uid_gen i /\ ev = make_event bd).
Proof.
  intros Hb. apply build_from_Mapped in Hb as (Hok & Hsize & Hin).
  - simpl in *. rewrite map_size_empty in Hsize.
    split_and!; [done..|]. intros u ev. rewrite Hin, lookup_empty.
    split; [by intros [|?]|auto].
  - intros j _. apply lookup_empty.
Qed.

(** The mapper returns exactly when no round raises. *)
Lemma build_from_total k evs cal :
  Forall (fun bd : record => event_of bd = Some (make_event bd)) evs ->
  exists cal', build_from k evs cal = Mapped cal'.
Proof.
  intros Hok. revert k cal.
  induction Hok as [|bd rest Hbd _ IH]; intros k cal; simpl; [by eexists|].
  rewrite Hbd. apply IH.
Qed.

Lemma elem_of_events_iter {V : EventOrder} (m : gmap str Event) u ev :
  (u, ev) ∈ events_iter m <-> m !! u = Some ev.
Proof. by rewrite events_iter_perm, elem_of_map_to_list. Qed.

End Mapper.


(** C7. The three known labels get their emoji and short label.  A bin
    type found in neither table gets no emoji: its title is the bin type
    itself as the label, trimmed of the white space at its ends, so it
    has no white space there and is the bin type unchanged when that has
    none, as "Textile recycling" has none. *)
Theorem title_of_bin_type (bin_type : str) :
  title (py "Household waste") = py "🗑️ Household Waste" /\
  title (py "Mixed recycling") = py "♻️ Recycling" /\
  title (py "Garden waste recycling") = py "🌿 Garden" /\
  title (py "Textile recycling") = py "Textile recycling" /\
  (EMOJI !! bin_type = None -> SHORT !! bin_type = None ->
   title bin_type = strip bin_type /\
   trimmed (title bin_type) /\
   (trimmed bin_type -> title bin_type = bin_type)).
Proof.
  split_and!; try by vm_compute.
  intros He Hs. assert (title bin_type = strip bin_type) as Ht.
  { unfold title. rewrite He, Hs. simpl.
    change (py "" ++ py " " ++ bin_type) with (0x20 :: bin_type).
    reflexivity. }
  rewrite Ht. split_and!; [done|apply strip_trimmed|apply strip_id].
Qed.

(** C8. The description of an event is the sentence "Put out the
    <bin type, lower-cased> bin." with its first character capitalised
    and the rest as it stands, provided lower-casing leaves alone the
    characters it produces; for "Mixed recycling" it is "Put out the
    mixed recycling bin.". *)
Theorem description_is_capitalised_template
    {U : UnicodeDB} {L : IcsLib} (bin_type : str) (d : date) :
  (forall before c after, Forall lower_fixed (lower_ucs4 before c after)) ->
  description (make_event (bin_type, d)) = description_spec bin_type /\
  description (make_event (bin_type, d))
  = py "Put out the " ++ lower bin_type ++ py " bin." /\
  description (make_event (py "Mixed recycling", d))
  = py "Put out the mixed recycling bin.".
Proof.
  intros Hst.
  assert (description (make_event (bin_type, d))
          = py "Put out the " ++ lower bin_type ++ py " bin.") as Hd.
  { change (description (make_event (bin_type, d)))
      with (capitalize (py "Put out the " ++ lower bin_type ++ py " bin.")).
    change (py "Put out the ") with (0x50 :: py "ut out the ").
    change (capitalize ((0x50 :: py "ut out the ")
                          ++ lower bin_type ++ py " bin."))
      with (0x50 :: lower_from [0x50]
                      (py "ut out the " ++ lower bin_type ++ py " bin.")).
    rewrite lower_from_fixed; [done|].
    apply Forall_app. split; [|apply Forall_app; split].
    - by apply plain_ascii_lower_fixed.
    - by apply lower_from_Forall.
    - by apply plain_ascii_lower_fixed. }
  split_and!; [|done|reflexivity].
  rewrite Hd. reflexivity.
Qed.

(** ** The theorems at work on the sample pages *)

Lemma next_collection_scan_witness :
  let st := {| collections := []; stdout := [] |} in
  let scan :=
    @scan_next Sample.ascii_db Sample.dmy_parser (Sample.page_soup [])
      true (py "Household waste") in
  Forall (fun x => contains MARKER (Sample.text_of x) = false)
    [Sample.intro_block] /\
  contains MARKER (Sample.text_of Sample.tbd_block) = true /\
  scan [Sample.intro_block; Sample.tbd_block; Sample.dated_block] st = st.
Proof.
  intros st scan. split_and!.
  - repeat constructor.
  - reflexivity.
  - apply (@next_collection_scan_stops_at_first_marker
             Sample.ascii_db Sample.dmy_parser (Sample.page_soup [])
             true (py "Household waste") [Sample.intro_block]
             Sample.tbd_block [Sample.dated_block] st).
    + repeat constructor.
    + reflexivity.
    + reflexivity.
Defined.

Lemma extract_date_drops_witness :
  @_extract_date Sample.ascii_db Sample.dmy_parser
    (py "Collected on Friday, 31 Smarch 2025")
  = None.
Proof.
  apply (proj2 (proj1 (@extract_date_drops_unparsable
           Sample.ascii_db Sample.dmy_parser (Sample.page_soup [])
           (py "Collected on Friday, 31 Smarch 2025")))).
  right. eexists. split; [reflexivity|]. left. reflexivity.
Defined.


(** The scenario of one section headed "Household waste": two records
    in date order, and a calendar of two events with the household title
    at "Kerbside". *)
Example household_end_to_end :
  let recs :=
    (@extract Sample.ascii_db Sample.dmy_parser
       (Sample.page_soup Sample.household_page) Sample.forward_order
       false Sample.household_html).1 in
  recs = [(py "Household waste", Date 2025 1 10);
          (py "Household waste", Date 2025 2 7)] /\
  exists cal,
    @_build_calendar Sample.ascii_db Sample.no_alarm recs = Mapped cal /\
    let evs := (@events_iter Sample.short_first (events cal)).*2 in
    name <$> evs = [py "🗑️ Household Waste"; py "🗑️ Household Waste"] /\
    begin <$> evs = [Date 2025 1 10; Date 2025 2 7] /\
    location <$> evs = [py "Kerbside"; py "Kerbside"].
Proof.
  split; [vm_compute; reflexivity|].
  eexists. split; [vm_compute; reflexivity|].
  vm_compute. split_and!; reflexivity.
Qed.

(** The calendar need not yield the events in the order of the records:
    of two records, the event of the second comes first when the set
    yields the longer uid first. *)
Lemma build_calendar_order_differs :
  exists cal,
    @_build_calendar Sample.ascii_db Sample.no_alarm Sample.two_records
    = Mapped cal /\
    categories <$> (@events_iter Sample.long_first (events cal)).*2
    <> (fun bd : record => [bd.1]) <$> Sample.two_records.
Proof.
  eexists. split; [vm_compute; reflexivity|].
  intros Heq. vm_compute in Heq. discriminate Heq.
Qed.

Example extract_date_march :
  @_extract_date Sample.ascii_db Sample.dmy_parser
    (py "Next collection Monday, 3 March 2025 is due")
  = Some (Date 2025 3 3).
Proof. vm_compute. reflexivity. Qed.

(** A date text without a month is read with the month of the day of
    the run: the same page gives another date a month later. *)
Example extract_differs_between_days :
  (@extract Sample.ascii_db (Sample.filling_parser (Date 2025 1 15))
     (Sample.page_soup Sample.monthless_page) Sample.forward_order
     false Sample.monthless_html).1
  = [(py "Household waste", Date 2025 1 7)] /\
  (@extract Sample.ascii_db (Sample.filling_parser (Date 2025 2 15))
     (Sample.page_soup Sample.monthless_page) Sample.forward_order
     false Sample.monthless_html).1
  = [(py "Household waste", Date 2025 2 7)].
Proof. split; vm_compute; reflexivity. Qed.


Lemma title_unknown_witness :
  EMOJI !! py "Textile recycling" = None /\
  SHORT !! py "Textile recycling" = None /\
  title (py "Textile recycling") = strip (py "Textile recycling").
Proof.
  assert (EMOJI !! py "Textile recycling" = None) as He
    by (vm_compute; reflexivity).
  assert (SHORT !! py "Textile recycling" = None) as Hs
    by (vm_compute; reflexivity).
  split_and!; [exact He|exact Hs|].
  destruct (title_of_bin_type (py "Textile recycling"))
    as (_ & _ & _ & _ & Hu).
  exact (proj1 (Hu He Hs)).
Defined.

(** The trimming of the title also trims a label that ends in a
    space. *)
Example title_trims_label :
  title (py "Textile recycling ") = py "Textile recycling".
Proof. vm_compute. reflexivity. Qed.

Lemma description_witness :
  (forall before c after,
     Forall (@lower_fixed Sample.ascii_db)
       (@lower_ucs4 Sample.ascii_db before c after)) /\
  description
    (@make_event Sample.ascii_db Sample.no_alarm
       (py "Garden waste recycling", Date 2025 1 6))
  = @description_spec Sample.ascii_db (py "Garden waste recycling").
Proof.
  split; [apply ascii_db_lower_stable|].
  apply (@description_is_capitalised_template
           Sample.ascii_db Sample.no_alarm
           (py "Garden waste recycling") (Date 2025 1 6)).
  apply ascii_db_lower_stable.
Defined.

(** * Further properties of the program *)

(** ** The extractor *)

Section ExtractorMore.
Context {U : UnicodeDB} {P : DateParser} {S : Soup}.

Lemma elem_of_contribution b text (bd : record) :
  bd ∈ contribution b text <-> _extract_date text = Some bd.2 /\ bd.1 = b.
Proof.
  unfold contribution. destruct bd as [b' d'], (_extract_date text) as [d|];
    simpl.
  - rewrite list_elem_of_singleton. split; [by intros [= -> ->]|].
    by intros [[= ->] ->].
  - rewrite elem_of_nil. by split; [|intros [? _]].
Qed.

Lemma elem_of_next_contribution b divs (bd : record) :
  bd ∈ next_contribution b divs <->
  exists pre div post,
    divs = pre ++ div :: post /\
    Forall (fun x => contains MARKER (get_text x) = false) pre /\
    contains MARKER (get_text div) = true /\
    _extract_date (get_text div) = Some bd.2 /\ bd.1 = b.
Proof.
  induction divs as [|div rest IH]; simpl.
  - rewrite elem_of_nil. split; [done|].
    intros (pre & ? & ? & Heq & _). by destruct pre.
  - destruct (contains MARKER (get_text div)) eqn:Hm.
    + rewrite elem_of_contribution. split.
      * intros [Hd Hb]. by exists [], div, rest.
      * intros (pre & div' & post & Heq & Hpre & Hm' & Hd & Hb).
        destruct Hpre as [|x pre Hx _]; simpl in Heq.
        -- by injection Heq as <- _.
        -- injection Heq as <- _. congruence.
    + rewrite IH. split.
      * intros (pre & div' & post & -> & Hpre & Hrest).
        exists (div :: pre), div', post. split; [done|].
        split; [by constructor|done].
      * intros (pre & div' & post & Heq & Hpre & Hm' & Hrest).
        destruct Hpre as [|x pre Hx Hpre]; simpl in Heq.
        -- injection Heq as <- _. congruence.
        -- injection Heq as <- ->. by exists pre, div', post.
Qed.

Lemma set_iter_nil {O : SetOrder} : set_iter [] = [].
Proof.
  apply elem_of_nil_inv. intros x. rewrite set_iter_elem. apply not_elem_of_nil.
Qed.

End ExtractorMore.

(** X1. The returned list is empty exactly when no fragment of the page
    yields a date: for every [div.colldates], the first block of its
    parent that contains "Next collection", if there is one, yields no
    date, and none of its list items does.  A page without any
    [div.colldates] gives the empty list and prints nothing, whatever
    [verbose] is. *)
Theorem extract_empty
    {U : UnicodeDB} {P : DateParser} {S : Soup} {O : SetOrder}
    (verbose : bool) (html : str) :
  ((extract verbose html).1 = [] <->
   forall colldiv,
     colldiv ∈ select_colldates (BeautifulSoup html) ->
     (forall container pre div post,
        parent colldiv = Some container ->
        find_all_u_mb_2 container = pre ++ div :: post ->
        Forall (fun x => contains MARKER (get_text x) = false) pre ->
        contains MARKER (get_text div) = true ->
        _extract_date (get_text div) = None) /\
     (forall li,
        li ∈ select_ul_li colldiv ->
        _extract_date (get_text_sep_strip li) = None)) /\
  (select_colldates (BeautifulSoup html) = [] ->
   extract verbose html = ([], [])).
Proof.
  split.
  - rewrite extract_records. split.
    + intros Hnil colldiv Hc.
      assert (forall bd, bd ∈ section_records colldiv -> False) as Hno.
      { intros bd Hbd.
        assert (bd ∈ sorted_by_date
                       (set_iter (select_colldates (BeautifulSoup html)
                                    ≫= section_records))) as Hin.
        { rewrite sorted_by_date_Permutation, set_iter_elem,
            list_elem_of_bind. by exists colldiv. }
        rewrite Hnil in Hin. by apply elem_of_nil in Hin. }
      split.
      * intros container pre div post Hp Heq Hpre Hm.
        destruct (_extract_date (get_text div)) as [d|] eqn:Hd; [|done].
        exfalso. apply (Hno (bin_type_of colldiv, d)).
        unfold section_records. apply elem_of_app. left. rewrite Hp.
        apply elem_of_next_contribution. by exists pre, div, post.
      * intros li Hli.
        destruct (_extract_date (get_text_sep_strip li)) as [d|] eqn:Hd;
          [|done].
        exfalso. apply (Hno (bin_type_of colldiv, d)).
        unfold section_records. apply elem_of_app. right.
        apply list_elem_of_bind. exists li. split; [|done].
        by apply elem_of_contribution.
    + intros Hall. apply elem_of_nil_inv. intros bd.
      rewrite sorted_by_date_Permutation, set_iter_elem, list_elem_of_bind.
      intros (c & Hbd & Hc). destruct (Hall c Hc) as [Hn Hl].
      unfold section_records in Hbd. apply elem_of_app in Hbd as [Hb|Hb].
      * destruct (parent c) as [container|] eqn:Hp;
          [|by apply elem_of_nil in Hb].
        apply elem_of_next_contribution in Hb
          as (pre & div & post & Heq & Hpre & Hm & Hd & _).
        by rewrite (Hn _ _ _ _ eq_refl Heq Hpre Hm) in Hd.
      * apply list_elem_of_bind in Hb as (li & Hbd & Hli).
        apply elem_of_contribution in Hbd as [Hd _].
        by rewrite (Hl _ Hli) in Hd.
  - intros Hnone. unfold extract, scrape_soup, run_sections.
    rewrite Hnone. simpl. by rewrite set_iter_nil.
Qed.

(** X2. The returned list holds exactly the records of the fragments: a
    pair is returned if and only if some [div.colldates] has the pair's
    bin type as its label and the pair's date is extracted either from
    the first block of its parent that contains "Next collection" or
    from one of its list items.  So no list item with a date is lost,
    and nothing is returned that the page does not contain. *)
Theorem extract_membership
    {U : UnicodeDB} {P : DateParser} {S : Soup} {O : SetOrder}
    (verbose : bool) (html : str) (bd : record) :
  bd ∈ (extract verbose html).1 <->
  exists colldiv,
    colldiv ∈ select_colldates (BeautifulSoup html) /\
    bd.1 = bin_type_of colldiv /\
    ((exists container pre div post,
        parent colldiv = Some container /\
        find_all_u_mb_2 container = pre ++ div :: post /\
        Forall (fun x => contains MARKER (get_text x) = false) pre /\
        contains MARKER (get_text div) = true /\
        _extract_date (get_text div) = Some bd.2) \/
     (exists li,
        li ∈ select_ul_li colldiv /\
        _extract_date (get_text_sep_strip li) = Some bd.2)).
Proof.
  rewrite extract_records, sorted_by_date_Permutation, set_iter_elem.
  rewrite list_elem_of_bind. split.
  - intros (c & Hbd & Hc). exists c. split; [done|].
    unfold section_records in Hbd. apply elem_of_app in Hbd as [Hn|Hl].
    + destruct (parent c) as [container|] eqn:Hp;
        [|by apply elem_of_nil in Hn].
      apply elem_of_next_contribution in Hn
        as (pre & div & post & Heq & Hpre & Hm & Hd & Hb).
      split; [done|]. left. by exists container, pre, div, post.
    + apply list_elem_of_bind in Hl as (li & Hbd & Hli).
      apply elem_of_contribution in Hbd as [Hd Hb].
      split; [done|]. right. by exists li.
  - intros (c & Hc & Hb & Hfrom). exists c. split; [|done].
    unfold section_records. apply elem_of_app.
    destruct Hfrom as [(container & pre & div & post & Hp & Heq & Hpre & Hm & Hd)
                      |(li & Hli & Hd)].
    + left. rewrite Hp. apply elem_of_next_contribution.
      by exists pre, div, post.
    + right. apply list_elem_of_bind. exists li. split; [|done].
      by apply elem_of_contribution.
Qed.

(** X3. When no [div.colldates] of the page has a [div.u-mb-4] before
    it, every returned record carries the label "Bin". *)
Theorem headingless_sections_are_labelled_Bin
    {U : UnicodeDB} {P : DateParser} {S : Soup} {O : SetOrder}
    (verbose : bool) (html : str) :
  (forall colldiv,
     colldiv ∈ select_colldates (BeautifulSoup html) ->
     find_previous_u_mb_4 colldiv = None) ->
  Forall (fun bd : record => bd.1 = py "Bin") (extract verbose html).1.
Proof.
  intros Hnone. apply Forall_forall. intros bd.
  rewrite extract_records, sorted_by_date_Permutation, set_iter_elem.
  rewrite list_elem_of_bind. intros (c & Hbd & Hc).
  assert (bd.1 = bin_type_of c) as ->.
  { unfold section_records in Hbd. apply elem_of_app in Hbd as [Hn|Hl].
    - destruct (parent c); [|by apply elem_of_nil in Hn].
      by apply elem_of_next_contribution in Hn as (? & ? & ? & ? & ? & ? & ? & ?).
    - apply list_elem_of_bind in Hl as (li & Hbd & _).
      by apply elem_of_contribution in Hbd as [_ ?]. }
  unfold bin_type_of. by rewrite (Hnone c Hc).
Qed.

(** ** The date pattern *)

Lemma matches_cons_inv it pat m :
  Re.matches (it :: pat) m ->
  exists w m',
    m = w ++ m' /\ Forall (fun c => Re.i_cls it c = true) w /\
    (Re.i_lo it <= length w)%nat /\ Re.within (Re.i_hi it) (length w) /\
    Re.matches pat m'.
Proof. inversion 1; subst. eauto 10. Qed.

Lemma matches_nil_inv m : Re.matches [] m -> m = [].
Proof. by inversion 1. Qed.

(** The parts of a text of the date pattern. *)
Lemma date_text_parts {U : UnicodeDB} m :
  Re.matches DATE_RE m ->
  exists w1 c s1 d s2 w2 s3 y,
    m = w1 ++ c ++ s1 ++ d ++ s2 ++ w2 ++ s3 ++ y /\
    (Forall (fun x => is_ascii_alpha x = true) w1 /\ (1 <= length w1)%nat) /\
    (Forall (fun x => (0x2C =? x) = true) c /\ (length c <= 1)%nat) /\
    (Forall (fun x => is_space x = true) s1 /\ (1 <= length s1)%nat) /\
    (Forall (fun x => is_decimal x = true) d /\
     (1 <= length d)%nat /\ (length d <= 2)%nat) /\
    (Forall (fun x => is_space x = true) s2 /\ (1 <= length s2)%nat) /\
    (Forall (fun x => is_ascii_alpha x = true) w2 /\ (1 <= length w2)%nat) /\
    (Forall (fun x => is_space x = true) s3 /\ (1 <= length s3)%nat) /\
    (Forall (fun x => is_decimal x = true) y /\ length y = 4%nat).
Proof.
  unfold DATE_RE. intros H.
  apply matches_cons_inv in H as (w1 & m1 & -> & Hw1 & Hl1 & _ & H).
  apply matches_cons_inv in H as (c & m2 & -> & Hc & _ & Hhc & H).
  apply matches_cons_inv in H as (s1 & m3 & -> & Hs1 & Hl3 & _ & H).
  apply matches_cons_inv in H as (d & m4 & -> & Hd & Hl4 & Hh4 & H).
  apply matches_cons_inv in H as (s2 & m5 & -> & Hs2 & Hl5 & _ & H).
  apply matches_cons_inv in H as (w2 & m6 & -> & Hw2 & Hl6 & _ & H).
  apply matches_cons_inv in H as (s3 & m7 & -> & Hs3 & Hl7 & _ & H).
  apply matches_cons_inv in H as (y & m8 & -> & Hy & Hl8 & Hh8 & H).
  apply matches_nil_inv in H as ->. rewrite app_nil_r. simpl in *.
  exists w1, c, s1, d, s2, w2, s3, y. split_and!; try done. lia.
Qed.

Lemma filter_all_length {A} (Q : A -> Prop) `{forall x, Decision (Q x)} l :
  Forall Q l -> length (filter Q l) = length l.
Proof.
  induction 1 as [|x l Hx _ IH]; [done|].
  rewrite filter_cons_True by done. simpl. by rewrite IH.
Qed.

(** X4. A fragment of fewer than ten characters, or with fewer than five
    decimal digits, yields no date: the pattern cannot match in it and
    the parser is not consulted. *)
Theorem no_date_in_short_or_digitless_text
    {U : UnicodeDB} {P : DateParser} (text : str) :
  (length text < 10)%nat \/
  (length (filter (fun c => is_decimal c = true) text) < 5)%nat ->
  Re.search DATE_RE text = None /\ _extract_date text = None.
Proof.
  intros Hsmall.
  assert (Re.search DATE_RE text = None) as Hs.
  { apply search_None_iff. intros (pre & m & post & -> & Hm).
    apply date_text_parts in Hm
      as (w1 & c & s1 & d & s2 & w2 & s3 & y & -> & [_ ?] & _ & [_ ?]
          & (Hd & ? & _) & [_ ?] & [_ ?] & [_ ?] & Hy & Hly).
    destruct Hsmall as [Hlen|Hdig].
    - rewrite !length_app in Hlen. lia.
    - unfold str in Hdig. rewrite !filter_app, !length_app in Hdig.
      rewrite (filter_all_length _ d), (filter_all_length _ y) in Hdig
        by done.
      lia. }
  split; [done|]. unfold _extract_date. by rewrite Hs.
Qed.

(** X5. Whenever a date is extracted, it is what the parser made of a
    part of the text that has at least ten characters, begins with an
    ASCII letter and ends with four decimal digits; the parser sees no
    other text. *)
Theorem extracted_date_comes_from_date_text
    {U : UnicodeDB} {P : DateParser} (text : str) (d : date) :
  _extract_date text = Some d ->
  exists pre g post,
    text = pre ++ g ++ post /\
    dtparse g = Parsed d /\
    (10 <= length g)%nat /\
    (exists c r, g = c :: r /\ is_ascii_alpha c = true) /\
    (exists r y, g = r ++ y /\ length y = 4%nat /\
                 Forall (fun c => is_decimal c = true) y).
Proof.
  unfold _extract_date.
  destruct (Re.search DATE_RE text) as [m|] eqn:Hs; [|done].
  destruct (dtparse (Re.group0 m)) as [d'| |] eqn:Hp; try done.
  intros [= ->].
  destruct (search_first _ _ _ Hs) as (pre & post & -> & _ & Hm & _).
  exists pre, (Re.group0 m), post. split; [done|]. split; [done|].
  apply date_text_parts in Hm
    as (w1 & c & s1 & dd & s2 & w2 & s3 & y & -> & [Hw1 ?] & _ & [_ ?]
        & (_ & ? & _) & [_ ?] & [_ ?] & [_ ?] & Hy & Hly).
  split_and!.
  - rewrite !length_app. lia.
  - destruct Hw1 as [|x w1 Hx _]; [simpl in *; lia|]. by exists x, (w1 ++ c ++ s1 ++ dd ++ s2 ++ w2 ++ s3 ++ y).
  - exists (w1 ++ c ++ s1 ++ dd ++ s2 ++ w2 ++ s3), y.
    split; [by rewrite <- !app_assoc|done].
Qed.

(** ** The event mapper and the pipeline *)

(** X7. From what the extractor returns, the mapper makes a calendar
    without repeated entries: when it returns, the calendar yields one
    event for each returned record, two of its events with the same
    category and day are one event, and a bin type and a day are those
    of a returned record exactly when they are the category and the day
    of an event.  When it raises, it does so in the round of a returned
    record. *)
Theorem pipeline_calendar_has_no_repeated_event
    {U : UnicodeDB} {P : DateParser} {S : Soup} {O : SetOrder} {L : IcsLib}
    {V : EventOrder} (verbose : bool) (html : str) :
  let recs := (extract verbose html).1 in
  match _build_calendar recs with
  | Mapped cal =>
      let evs := events_iter (events cal) in
      length evs = length recs /\
      (forall u1 e1 u2 e2,
         (u1, e1) ∈ evs -> (u2, e2) ∈ evs ->
         categories e1 = categories e2 -> begin e1 = begin e2 ->
         u1 = u2 /\ e1 = e2) /\
      (forall b d,
         (b, d) ∈ recs <->
         exists u ev, (u, ev) ∈ evs /\ categories ev = [b] /\ begin ev = d)
  | MapRaise bd => bd ∈ recs /\ event_of bd = None
  end.
Proof.
  intros recs.
  assert (NoDup recs) as Hnd.
  { unfold recs, extract, scrape_soup; simpl.
    rewrite sorted_by_date_Permutation. apply set_iter_NoDup. }
  destruct (_build_calendar recs) as [cal|bd] eqn:Hb.
  - apply build_calendar_Mapped in Hb as (_ & Hsize & Hin).
    split_and!.
    + by rewrite events_iter_perm, length_map_to_list.
    + intros u1 e1 u2 e2 H1%elem_of_events_iter H2%elem_of_events_iter.
      apply Hin in H1 as (i1 & [b1 d1] & Hr1 & -> & ->).
      apply Hin in H2 as (i2 & [b2 d2] & Hr2 & -> & ->).
      simpl. intros [= ->] ->.
      by rewrite (NoDup_lookup _ _ _ _ Hnd Hr1 Hr2).
    + intros b d. split.
      * intros (i & Hi)%list_elem_of_lookup_1.
        exists (uid_gen i), (make_event (b, d)). split; [|done].
        apply elem_of_events_iter, Hin. by exists i, (b, d).
      * intros (u & ev & Hu%elem_of_events_iter & Hc & Hd).
        apply Hin in Hu as (i & [b' d'] & Hr & -> & ->).
        simpl in Hc, Hd. injection Hc as ->. subst d'.
        by eapply list_elem_of_lookup_2.
  - apply build_from_MapRaise in Hb as (pre & post & Hrecs & Hbd & _).
    split; [|done]. rewrite Hrecs. set_solver.
Qed.

Lemma lower_from_app_fixed {U : UnicodeDB} before a r :
  Forall lower_fixed a ->
  lower_from before (a ++ r) = a ++ lower_from (reverse a ++ before) r.
Proof.
  intros Ha. revert before.
  induction Ha as [|c a [Hc1 Hc2] _ IH]; intros before; simpl; [done|].
  unfold lower_ucs4. apply N.eqb_neq in Hc1. rewrite Hc1, Hc2, IH. simpl.
  by rewrite reverse_cons, <- app_assoc.
Qed.

Lemma lower_from_ends {U : UnicodeDB} before x s :
  Forall lower_fixed s -> exists z, lower_from before (x ++ s) = z ++ s.
Proof.
  intros Hs. revert before. induction x as [|c x IH]; intros before; simpl.
  - exists []. by apply lower_from_fixed.
  - destruct (IH (c :: before)) as [z ->].
    exists (lower_ucs4 before c (x ++ s) ++ z). by rewrite app_assoc.
Qed.

(** X8. Whatever the bin type and the Unicode tables, the description
    begins with "Put out the " and ends with " bin.". *)
Theorem description_frame
    {U : UnicodeDB} {L : IcsLib} (bin_type : str) (d : date) :
  exists z,
    description (make_event (bin_type, d))
    = py "Put out the " ++ z ++ py " bin.".
Proof.
  change (description (make_event (bin_type, d)))
    with (capitalize (py "Put out the " ++ lower bin_type ++ py " bin.")).
  change (py "Put out the ") with (0x50 :: py "ut out the ").
  change (capitalize ((0x50 :: py "ut out the ")
                        ++ lower bin_type ++ py " bin."))
    with (0x50 :: lower_from [0x50]
                    (py "ut out the " ++ lower bin_type ++ py " bin.")).
  rewrite lower_from_app_fixed by (by apply plain_ascii_lower_fixed).
  destruct (lower_from_ends (reverse (py "ut out the ") ++ [0x50])
              (lower bin_type) (py " bin.")) as [z ->];
    [by apply plain_ascii_lower_fixed|].
  by exists z.
Qed.

(** ** The command line *)

Section MainProperties.
Context {U : UnicodeDB} {P : DateParser} {S : Soup} {W : Http}
  {O : SetOrder} {L : IcsLib} {E : IcsSerializer} {F : FileSystem}.

(** What [main] does once the address is known. *)
Lemma main_with_url (ns : Cli.Namespace) env w c u :
  Cli.py_or (Cli.url ns) env = Some (c :: u) ->
  Cli.main ns env w =
  match _scrape (c :: u) (Cli.verbose ns) with
  | Raise e => (Cli.ScrapeError e, w)
  | Return (events, printed) =>
      let w1 := Cli.say printed w in
      let w2 :=
        if Cli.verbose ns then Cli.say (Cli.event_line <$> events) w1
        else w1 in
      match _build_calendar events with
      | MapRaise bd => (Cli.MapperError bd, w2)
      | Mapped cal =>
          let out_path := Path (Cli.output ns) in
          if write_ok out_path (serialize cal) then
            (Cli.Finished,
             if Cli.verbose ns
             then Cli.say [Cli.wrote_line out_path (length events)]
                    (Cli.write_text out_path (serialize cal) w2)
             else Cli.write_text out_path (serialize cal) w2)
          else
            (Cli.WriteError,
             match write_residue out_path (serialize cal) with
             | Some rest => Cli.write_text out_path rest w2
             | None => w2
             end)
      end
  end.
Proof. intros Hu. unfold Cli.main. by rewrite Hu. Qed.

Lemma main_without_url (ns : Cli.Namespace) env w :
  Cli.truthy (Cli.py_or (Cli.url ns) env) = false ->
  Cli.main ns env w =
  (Cli.SystemExit (py "Error: --url arg or BINCOLL_URL env var required"), w).
Proof.
  unfold Cli.main. by destruct (Cli.py_or (Cli.url ns) env) as [[|]|].
Qed.

Lemma truthy_Some (a : option str) :
  Cli.truthy a = true <-> exists c u, a = Some (c :: u).
Proof.
  destruct a as [[|c u]|]; simpl; split; try done; try by intros (? & ? & ?).
  intros _. by exists c, u.
Qed.

End MainProperties.

(** X9. The address comes from [--url] when that is given and not empty,
    and otherwise from BINCOLL_URL; when neither holds a non-empty
    string, [main] exits with the error message and leaves the console
    and the files as they were. *)
Theorem main_url_resolution
    {U : UnicodeDB} {P : DateParser} {S : Soup} {W : Http}
    {O : SetOrder} {L : IcsLib} {E : IcsSerializer} {F : FileSystem}
    (u : option str) (o : str) (v : bool) (env : option str)
    (w : Cli.world) :
  let ns := {| Cli.url := u; Cli.output := o; Cli.verbose := v |} in
  (Cli.truthy u = false -> Cli.truthy env = false ->
   Cli.main ns env w =
   (Cli.SystemExit (py "Error: --url arg or BINCOLL_URL env var required"),
    w)) /\
  (Cli.truthy u = true -> forall env', Cli.main ns env w = Cli.main ns env' w) /\
  (Cli.truthy u = false ->
   Cli.main ns env w =
   Cli.main {| Cli.url := env; Cli.output := o; Cli.verbose := v |} None w).
Proof.
  intros ns. split_and!.
  - intros Hu He. apply main_without_url. unfold Cli.py_or. simpl.
    by rewrite Hu.
  - intros Hu env'. unfold Cli.main, Cli.py_or. simpl. by rewrite Hu.
  - intros Hu. unfold Cli.main, Cli.py_or. simpl. rewrite Hu.
    by destruct env as [[|]|].
Qed.

(** X10. What a run of [main] that stops early leaves behind.  When it
    stops for a missing address or for an error of the request, the
    console and the files are as they were.  When the mapper raises, in
    the round of an extracted record, the files are as they were.  When
    writing the file raises, the request had succeeded and the mapper
    had returned; every file but the one at the output path is as it
    was, and that one is as it was when it could not be opened, and
    otherwise holds what had been written of the serialization, its old
    content being lost. *)
Theorem main_early_exit_effects
    {U : UnicodeDB} {P : DateParser} {S : Soup} {W : Http}
    {O : SetOrder} {L : IcsLib} {E : IcsSerializer} {F : FileSystem}
    (ns : Cli.Namespace) (env : option str) (w w' : Cli.world)
    (e : Cli.exit) :
  Cli.main ns env w = (e, w') ->
  match e with
  | Cli.Finished => True
  | Cli.SystemExit _ | Cli.ScrapeError _ => w' = w
  | Cli.MapperError bd =>
      Cli.files w' = Cli.files w /\ event_of bd = None /\
      exists u r,
        Cli.py_or (Cli.url ns) env = Some u /\ requests_get u = Return r /\
        bd ∈ (extract (Cli.verbose ns) (r_text r)).1
  | Cli.WriteError =>
      let path := Path (Cli.output ns) in
      exists u r cal,
        Cli.py_or (Cli.url ns) env = Some u /\ requests_get u = Return r /\
        _build_calendar (extract (Cli.verbose ns) (r_text r)).1
          = Mapped cal /\
        write_ok path (serialize cal) = false /\
        (forall q, q <> path -> Cli.files w' !! q = Cli.files w !! q) /\
        Cli.files w' !! path =
          match write_residue path (serialize cal) with
          | Some rest => Some rest
          | None => Cli.files w !! path
          end
  end.
Proof.
  intros Hmain.
  destruct (Cli.truthy (Cli.py_or (Cli.url ns) env)) eqn:Hu.
  - apply truthy_Some in Hu as (c & u & Hu).
    rewrite (main_with_url _ _ _ _ _ Hu) in Hmain. unfold _scrape in Hmain.
    destruct (requests_get (c :: u)) as [r|x] eqn:Hget;
      [|by injection Hmain as <- <-].
    destruct (is_error_status r); [by injection Hmain as <- <-|].
    destruct (extract (Cli.verbose ns) (r_text r)) as [events printed] eqn:Hx.
    simpl in Hmain.
    destruct (_build_calendar events) as [cal|bd] eqn:Hb.
    + destruct (write_ok _ _) eqn:Hw; injection Hmain as <- <-; [done|].
      exists (c :: u), r, cal. rewrite Hx. simpl. split_and!; try done.
      * intros q Hq.
        destruct (write_residue _ _); destruct (Cli.verbose ns); simpl;
          by rewrite ?lookup_insert_ne.
      * destruct (write_residue _ _); destruct (Cli.verbose ns); simpl;
          by rewrite ?lookup_insert_eq.
    + injection Hmain as <- <-.
      apply build_from_MapRaise in Hb as (pre & post & Hev & Hbd & _).
      split_and!; [by destruct (Cli.verbose ns)|done|].
      exists (c :: u), r. rewrite Hx. simpl. split_and!; try done.
      rewrite Hev. set_solver.
  - rewrite main_without_url in Hmain by done. by injection Hmain as <- <-.
Qed.

(** X11. When [main] finishes, the request succeeded and the mapper
    returned; the file at the output path holds the serialization of the
    calendar of the extracted records and every other file is as before;
    with [verbose] the console has gained the lines of the extractor,
    one line for each record and the closing line, whose count is the
    number of events of that calendar, and without it the console is as
    before. *)
Theorem main_finished_effects
    {U : UnicodeDB} {P : DateParser} {S : Soup} {W : Http}
    {O : SetOrder} {L : IcsLib} {E : IcsSerializer} {F : FileSystem}
    (ns : Cli.Namespace) (env : option str) (w w' : Cli.world) :
  Cli.main ns env w = (Cli.Finished, w') ->
  exists u r cal,
    Cli.py_or (Cli.url ns) env = Some u /\ u <> [] /\
    requests_get u = Return r /\ is_error_status r = false /\
    let out := extract (Cli.verbose ns) (r_text r) in
    _build_calendar out.1 = Mapped cal /\
    let path := Path (Cli.output ns) in
    Cli.files w' !! path = Some (serialize cal) /\
    (forall q, q <> path -> Cli.files w' !! q = Cli.files w !! q) /\
    Cli.console w' =
      Cli.console w ++
      if Cli.verbose ns
      then out.2 ++ (Cli.event_line <$> out.1)
             ++ [Cli.wrote_line path (size (events cal))]
      else [].
Proof.
  intros Hmain.
  destruct (Cli.truthy (Cli.py_or (Cli.url ns) env)) eqn:Hu;
    [|by rewrite main_without_url in Hmain].
  apply truthy_Some in Hu as (c & u & Hu).
  rewrite (main_with_url _ _ _ _ _ Hu) in Hmain. unfold _scrape in Hmain.
  destruct (requests_get (c :: u)) as [r|x] eqn:Hget; [|done].
  destruct (is_error_status r) eqn:Hst; [done|].
  destruct (extract (Cli.verbose ns) (r_text r)) as [events printed] eqn:Hx.
  simpl in Hmain.
  destruct (_build_calendar events) as [cal|bd] eqn:Hb; [|done].
  pose proof Hb as (_ & Hsize & _)%build_calendar_Mapped.
  destruct (write_ok _ _); [|done].
  exists (c :: u), r, cal. rewrite Hx. simpl.
  destruct (Cli.verbose ns) eqn:Hv; injection Hmain as <-; simpl.
  - split_and!; try done.
    + apply lookup_insert_eq.
    + intros q Hq. by apply lookup_insert_ne.
    + by rewrite Hsize, <- !app_assoc.
  - split_and!; try done.
    + apply lookup_insert_eq.
    + intros q Hq. by apply lookup_insert_ne.
    + assert (printed = []) as ->; [|done].
      change printed with (events, printed).2. rewrite <- Hx.
      unfold extract, scrape_soup. simpl. apply run_sections_quiet.
Qed.

(** X13. For a page without any [div.colldates], fetched without error
    and written without error, [main] finishes, writes the serialization
    of the empty calendar and, with [verbose], prints only the closing
    line with the count 0. *)
Theorem main_on_page_without_sections
    {U : UnicodeDB} {P : DateParser} {S : Soup} {W : Http}
    {O : SetOrder} {L : IcsLib} {E : IcsSerializer} {F : FileSystem}
    (ns : Cli.Namespace) (env : option str) (w : Cli.world)
    (c : N) (u : str) (r : response) :
  Cli.py_or (Cli.url ns) env = Some (c :: u) ->
  requests_get (c :: u) = Return r ->
  is_error_status r = false ->
  select_colldates (BeautifulSoup (r_text r)) = [] ->
  write_ok (Path (Cli.output ns)) (serialize {| events := ∅ |}) = true ->
  Cli.main ns env w =
  (Cli.Finished,
   {| Cli.console :=
        Cli.console w ++
        (if Cli.verbose ns
         then [Cli.wrote_line (Path (Cli.output ns)) 0]
         else []);
      Cli.files :=
        <[Path (Cli.output ns) := serialize {| events := ∅ |}]>
          (Cli.files w) |}).
Proof.
  intros Hu Hget Hst Hnone Hw.
  rewrite (main_with_url _ _ _ _ _ Hu). unfold _scrape.
  rewrite Hget, Hst.
  assert (extract (Cli.verbose ns) (r_text r) = ([], [])) as ->.
  { unfold extract, scrape_soup, run_sections. rewrite Hnone. simpl.
    by rewrite set_iter_nil. }
  simpl. change (_build_calendar []) with (Mapped {| events := ∅ |}).
  simpl. rewrite Hw.
  unfold Cli.say, Cli.write_text. simpl.
  destruct (Cli.verbose ns); simpl; by rewrite ?app_nil_r.
Qed.

(** ** The date pattern reads nothing after its first match *)

Section Locality.

Lemma run_ok_S p lo hi c s n :
  p c = true -> Re.room hi = true ->
  run_ok p (Nat.pred lo) (Re.less hi) s n -> run_ok p lo hi (c :: s) (S n).
Proof.
  intros Hc Hr (Hn & Hp & Hlo & Hhi). unfold run_ok. simpl.
  split_and!; [lia|by constructor|lia|].
  destruct hi as [[|h]|]; simpl in *; [done|lia|done].
Qed.

Lemma run_ok_S_inv p lo hi c s n :
  run_ok p lo hi (c :: s) (S n) ->
  p c = true /\ Re.room hi = true /\
  run_ok p (Nat.pred lo) (Re.less hi) s n.
Proof.
  intros (Hn & Hp & Hlo & Hhi). simpl in *.
  apply Forall_cons in Hp as [Hc Hp]. unfold run_ok.
  split_and!; [done| |lia|done|lia|].
  - destruct hi as [[|h]|]; simpl in *; [lia|done|done].
  - destruct hi as [[|h]|]; simpl in *; [lia|lia|done].
Qed.

(** The engine fails when the continuation fails after every run. *)
Lemma greedy_None p lo hi (k : str -> option str) s :
  (forall n, run_ok p lo hi s n -> k (drop n s) = None) ->
  Re.greedy p lo hi k s = None.
Proof.
  revert lo hi. induction s as [|c s IH]; intros lo hi Hk; simpl.
  - destruct lo; [|done]. apply (Hk 0%nat). unfold run_ok. simpl.
    split_and!; [lia|constructor|lia|]. destruct hi; simpl; lia.
  - assert (match lo with O => k (c :: s) | S _ => None end = None) as Hstop.
    { destruct lo; [|done]. apply (Hk 0%nat). unfold run_ok. simpl.
      split_and!; [lia|constructor|lia|]. destruct hi; simpl; lia. }
    destruct (p c) eqn:Hc; [|done]. destruct (Re.room hi) eqn:Hr; [|done].
    simpl. rewrite IH; [done|].
    intros n Hn. apply (Hk (S n)). by apply run_ok_S.
Qed.

(** On two texts with the same beginning [u] the engine gives the same
    result when the continuation does so after every run within [u] and
    fails after every longer run. *)
Lemma greedy_local p (k : str -> option str) post post' u :
  forall lo hi,
    (forall n, (n <= length u)%nat -> run_ok p lo hi (u ++ post) n ->
               k (drop n u ++ post) = k (drop n u ++ post')) ->
    (forall n, (length u < n)%nat -> run_ok p lo hi (u ++ post) n ->
               k (drop n (u ++ post)) = None) ->
    (forall n, (length u < n)%nat -> run_ok p lo hi (u ++ post') n ->
               k (drop n (u ++ post')) = None) ->
    Re.greedy p lo hi k (u ++ post) = Re.greedy p lo hi k (u ++ post').
Proof.
  induction u as [|c u IH]; intros lo hi Hin Hout Hout'.
  - simpl in *.
    assert (forall t,
      (forall n, (0 < n)%nat -> run_ok p lo hi t n -> k (drop n t) = None) ->
      Re.greedy p lo hi k t = match lo with O => k t | S _ => None end)
      as Hskip.
    { intros [|c t] Ht; simpl; [done|].
      destruct (p c) eqn:Hc; [|done]. destruct (Re.room hi) eqn:Hr; [|done].
      simpl. rewrite greedy_None; [done|].
      intros n Hn. apply (Ht (S n)); [lia|]. by apply run_ok_S. }
    rewrite (Hskip post), (Hskip post') by done.
    destruct lo; [|done]. apply (Hin 0%nat); [lia|].
    unfold run_ok. simpl. split_and!; [lia|constructor|lia|].
    destruct hi; simpl; lia.
  - simpl.
    assert (match lo with O => k (c :: u ++ post) | S _ => None end
            = match lo with O => k (c :: u ++ post') | S _ => None end)
      as Hstop.
    { destruct lo; [|done]. apply (Hin 0%nat); [lia|].
      unfold run_ok. simpl. split_and!; [lia|constructor|lia|].
      destruct hi; simpl; lia. }
    destruct (p c) eqn:Hc; [|done]. destruct (Re.room hi) eqn:Hr; [|done].
    simpl. rewrite (IH (Nat.pred lo) (Re.less hi)).
    + by destruct (Re.greedy p (Nat.pred lo) (Re.less hi) k (u ++ post')).
    + intros n Hn Hok. apply (Hin (S n)); [simpl; lia|].
      by apply run_ok_S.
    + intros n Hn Hok. apply (Hout (S n)); [simpl; lia|].
      by apply run_ok_S.
    + intros n Hn Hok. apply (Hout' (S n)); [simpl; lia|].
      by apply run_ok_S.
Qed.

Lemma match_bounded_drop it pat u post n :
  match_bounded (it :: pat) u post ->
  (n <= length u)%nat ->
  run_ok (Re.i_cls it) (Re.i_lo it) (Re.i_hi it) (u ++ post) n ->
  match_bounded pat (drop n u) post.
Proof.
  intros Hb Hn (_ & Hp & Hlo & Hhi) m Hm [t Ht].
  rewrite take_app_le in Hp by done.
  assert (length (take n u ++ m) <= length u)%nat as Hlen.
  { apply Hb.
    - constructor; [done|by rewrite length_take; lia
                       |by rewrite length_take, Nat.min_l|done].
    - exists t. rewrite <- app_assoc, <- Ht, app_assoc.
      by rewrite take_drop. }
  rewrite length_app, length_take in Hlen. rewrite length_drop. lia.
Qed.

Lemma match_bounded_beyond it pat u post n :
  match_bounded (it :: pat) u post ->
  (length u < n)%nat ->
  run_ok (Re.i_cls it) (Re.i_lo it) (Re.i_hi it) (u ++ post) n ->
  Re.match_here pat (drop n (u ++ post)) = None.
Proof.
  intros Hb Hn (Hle & Hp & Hlo & Hhi).
  destruct (Re.match_here pat (drop n (u ++ post))) as [m|] eqn:Hm; [|done].
  exfalso. pose proof (match_here_sound _ _ _ Hm) as Hmm.
  destruct (match_here_prefix _ _ _ Hm) as [t Ht].
  assert (length (take n (u ++ post) ++ m) <= length u)%nat as Hlen.
  { apply Hb.
    - constructor; [done|by rewrite length_take; lia
                       |by rewrite length_take, Nat.min_l|done].
    - exists t. by rewrite <- app_assoc, <- Ht, take_drop. }
  rewrite length_app, length_take in Hlen. lia.
Qed.

(** The engine gives the same result on two texts with the same
    beginning when no text of the pattern reaches beyond it. *)
Lemma match_here_local pat u post post' :
  match_bounded pat u post -> match_bounded pat u post' ->
  Re.match_here pat (u ++ post) = Re.match_here pat (u ++ post').
Proof.
  revert u. induction pat as [|it pat IH]; intros u Hb Hb'; simpl; [done|].
  apply greedy_local.
  - intros n Hn Hok. apply IH.
    + by eapply match_bounded_drop.
    + eapply match_bounded_drop; [done..|].
      destruct Hok as (? & Hp & ? & ?). unfold run_ok.
      rewrite take_app_le in * by done. rewrite length_app in *.
      split_and!; [lia|done..].
  - intros n Hn Hok. by eapply match_bounded_beyond.
  - intros n Hn Hok. by eapply match_bounded_beyond.
Qed.

Lemma search_from_local pat pos pre g post post' :
  (forall j, match_bounded pat (drop j pre ++ g) post) ->
  (forall j, match_bounded pat (drop j pre ++ g) post') ->
  is_Some (Re.match_here pat (g ++ post)) ->
  Re.search_from pat pos (pre ++ g ++ post)
  = Re.search_from pat pos (pre ++ g ++ post').
Proof.
  revert pos. induction pre as [|c pre IH]; intros pos Hb Hb' Hg.
  - simpl (_ ++ _).
    assert (Re.match_here pat (g ++ post) = Re.match_here pat (g ++ post'))
      as Heq by (apply match_here_local; [apply (Hb 0%nat)|apply (Hb' 0%nat)]).
    destruct Hg as [m Hm]. rewrite Hm in Heq.
    destruct g as [|x g], post as [|y post], post' as [|y' post'];
      simpl in *; by rewrite <- ?Heq, ?Hm.
  - assert (Re.match_here pat ((c :: pre) ++ g ++ post)
            = Re.match_here pat ((c :: pre) ++ g ++ post')) as Heq.
    { rewrite !(app_assoc (c :: pre)).
      apply match_here_local; [apply (Hb 0%nat)|apply (Hb' 0%nat)]. }
    simpl in *. rewrite <- Heq.
    destruct (Re.match_here pat (c :: pre ++ g ++ post)); [done|].
    apply IH; [intros j; apply (Hb (S j))|intros j; apply (Hb' (S j))|done].
Qed.

End Locality.

Section DateLocality.
Context {U : UnicodeDB}.
Hypothesis space_not_decimal :
  forall c, is_space c = true -> is_decimal c = false.

Lemma alpha_not_decimal c : is_ascii_alpha c = true -> is_decimal c = false.
Proof.
  unfold is_ascii_alpha, is_decimal, is_ascii_digit.
  rewrite orb_true_iff, !andb_true_iff, !N.leb_le. intros Ha.
  replace (c <? 0x80) with true by (symmetry; apply N.ltb_lt; lia).
  apply andb_false_iff. rewrite !N.leb_gt. lia.
Qed.

Lemma comma_not_decimal c : (0x2C =? c) = true -> is_decimal c = false.
Proof. by intros <-%N.eqb_eq. Qed.

(** In a text of the date pattern a decimal digit stands in the day or
    in the year. *)
Lemma decimal_positions w1 c s1 d s2 w2 s3 y p ch :
  Forall (fun x => is_ascii_alpha x = true) w1 ->
  Forall (fun x => (0x2C =? x) = true) c ->
  Forall (fun x => is_space x = true) s1 ->
  Forall (fun x => is_space x = true) s2 ->
  Forall (fun x => is_ascii_alpha x = true) w2 ->
  Forall (fun x => is_space x = true) s3 ->
  (w1 ++ c ++ s1 ++ d ++ s2 ++ w2 ++ s3 ++ y) !! p = Some ch ->
  is_decimal ch = true ->
  (length w1 + length c + length s1 <= p
   < length w1 + length c + length s1 + length d)%nat \/
  (length w1 + length c + length s1 + length d
   + length s2 + length w2 + length s3 <= p)%nat.
Proof using space_not_decimal.
  intros Hw1 Hc Hs1 Hs2 Hw2 Hs3 Hp Hch.
  apply lookup_app_Some in Hp as [Hp|[? Hp]].
  { apply (Forall_lookup_1 _ _ _ _ Hw1), alpha_not_decimal in Hp.
    congruence. }
  apply lookup_app_Some in Hp as [Hp|[? Hp]].
  { apply (Forall_lookup_1 _ _ _ _ Hc), comma_not_decimal in Hp.
    congruence. }
  apply lookup_app_Some in Hp as [Hp|[? Hp]].
  { apply (Forall_lookup_1 _ _ _ _ Hs1), space_not_decimal in Hp.
    congruence. }
  apply lookup_app_Some in Hp as [Hp|[? Hp]].
  { apply lookup_lt_Some in Hp. lia. }
  apply lookup_app_Some in Hp as [Hp|[? Hp]].
  { apply (Forall_lookup_1 _ _ _ _ Hs2), space_not_decimal in Hp.
    congruence. }
  apply lookup_app_Some in Hp as [Hp|[? Hp]].
  { apply (Forall_lookup_1 _ _ _ _ Hw2), alpha_not_decimal in Hp.
    congruence. }
  apply lookup_app_Some in Hp as [Hp|[? Hp]].
  { apply (Forall_lookup_1 _ _ _ _ Hs3), space_not_decimal in Hp.
    congruence. }
  lia.
Qed.

(** A text of the date pattern that begins at or before another one
    does not reach beyond that one's year. *)
Lemma date_text_bounded x g post :
  Re.matches DATE_RE g -> match_bounded DATE_RE (x ++ g) post.
Proof using space_not_decimal.
  intros Hg m Hm [t Ht].
  destruct (decide (length m <= length (x ++ g))%nat) as [|Hlong]; [done|].
  exfalso.
  apply date_text_parts in Hg
    as (gw1 & gc & gs1 & gd & gs2 & gw2 & gs3 & gy & -> & _ & _ & _
        & _ & _ & _ & _ & Hgy & Hgl).
  destruct gy as [|y0 [|y1 [|y2 [|y3 [|]]]]]; try done.
  apply Forall_cons in Hgy as [Hy0 Hgy].
  apply Forall_cons in Hgy as [_ Hgy].
  apply Forall_cons in Hgy as [Hy2 _].
  set (r := x ++ gw1 ++ gc ++ gs1 ++ gd ++ gs2 ++ gw2 ++ gs3).
  assert ((x ++ gw1 ++ gc ++ gs1 ++ gd ++ gs2 ++ gw2 ++ gs3
             ++ [y0; y1; y2; y3]) ++ post
          = r ++ y0 :: y1 :: y2 :: y3 :: post) as Heq
    by (unfold r; by rewrite <- !app_assoc).
  rewrite Heq in Ht.
  assert (length (x ++ gw1 ++ gc ++ gs1 ++ gd ++ gs2 ++ gw2 ++ gs3
                    ++ [y0; y1; y2; y3]) = length r + 4)%nat as Hlen
    by (unfold r; rewrite !length_app; simpl; lia).
  rewrite Hlen in Hlong.
  assert (m !! length r = Some y0) as H0.
  { rewrite <- (lookup_app_l m t) by lia. rewrite <- Ht.
    by rewrite list_lookup_middle. }
  assert (m !! (length r + 2)%nat = Some y2) as H2.
  { rewrite <- (lookup_app_l m t) by lia. rewrite <- Ht.
    rewrite lookup_app_r by lia.
    by replace (length r + 2 - length r)%nat with 2%nat by lia. }
  apply date_text_parts in Hm
    as (w1 & c & s1 & d & s2 & w2 & s3 & y & -> & [Hw1 ?] & [Hc ?]
        & [Hs1 ?] & (_ & ? & ?) & [Hs2 ?] & [Hw2 ?] & [Hs3 ?] & _ & ?).
  apply decimal_positions in H0; [|done..].
  apply decimal_positions in H2; [|done..].
  rewrite !length_app in Hlong. lia.
Qed.

End DateLocality.

(** X14. What follows the first match of the date pattern plays no part
    in the extraction: when the pattern first matches [g] after [pre],
    every text that begins with [pre ++ g] has the same first match and
    yields the same date.  This holds when no white-space character is
    also a decimal digit, as in Unicode. *)
Theorem text_after_first_date_is_ignored
    {U : UnicodeDB} {P : DateParser} (pre g post post' : str) :
  (forall c, is_space c = true -> is_decimal c = false) ->
  Re.search DATE_RE (pre ++ g ++ post)
  = Some {| Re.m_start := length pre; Re.group0 := g |} ->
  Re.search DATE_RE (pre ++ g ++ post')
  = Some {| Re.m_start := length pre; Re.group0 := g |} /\
  _extract_date (pre ++ g ++ post') = _extract_date (pre ++ g ++ post).
Proof.
  intros Hdisj Hs.
  assert (Re.search DATE_RE (pre ++ g ++ post')
          = Re.search DATE_RE (pre ++ g ++ post)) as Heq.
  { destruct (search_leftmost _ _ _ Hs)
      as (pre0 & post0 & Hsplit & Hst & Hm & _).
    pose proof (match_here_sound _ _ _ Hm) as Hg.
    cbn [Re.group0 Re.m_start] in *.
    apply app_inj_1 in Hsplit as [<- Hsplit]; [|done].
    apply app_inv_head in Hsplit as <-.
    symmetry. apply search_from_local.
    - intros j. by apply date_text_bounded.
    - intros j. by apply date_text_bounded.
    - by rewrite Hm. }
  split; [by rewrite Heq|]. unfold _extract_date. by rewrite Heq.
Qed.

(** ** The further properties at work on the sample pages *)

Lemma ascii_db_space_not_decimal c :
  is_space c = true -> @is_decimal Sample.ascii_db c = false.
Proof.
  unfold is_space, is_decimal, is_ascii_digit. simpl.
  rewrite !orb_true_iff, !andb_true_iff, !N.leb_le, !N.eqb_eq. intros Hs.
  destruct (N.ltb_spec c 0x80); [|done].
  apply andb_false_iff. rewrite !N.leb_gt. lia.
Qed.

Lemma extract_empty_witness :
  @select_colldates (Sample.page_soup [])
    (@BeautifulSoup (Sample.page_soup []) (py "<html></html>")) = [] /\
  @extract Sample.ascii_db Sample.dmy_parser (Sample.page_soup [])
    Sample.forward_order true (py "<html></html>") = ([], []).
Proof.
  split; [reflexivity|].
  apply (@extract_empty Sample.ascii_db Sample.dmy_parser
           (Sample.page_soup []) Sample.forward_order true
           (py "<html></html>")).
  reflexivity.
Defined.

Lemma headingless_witness :
  (forall colldiv,
     colldiv ∈ @select_colldates (Sample.page_soup Sample.headingless_page)
                 Sample.headingless_page ->
     @find_previous_u_mb_4 (Sample.page_soup Sample.headingless_page) colldiv
     = None) /\
  Forall (fun bd : record => bd.1 = py "Bin")
    (@extract Sample.ascii_db Sample.dmy_parser
       (Sample.page_soup Sample.headingless_page) Sample.forward_order
       false (py "<div><div class='colldates'></div></div>")).1.
Proof.
  assert (forall colldiv,
     colldiv ∈ @select_colldates (Sample.page_soup Sample.headingless_page)
                 Sample.headingless_page ->
     @find_previous_u_mb_4 (Sample.page_soup Sample.headingless_page) colldiv
     = None) as Hnone.
  { intros colldiv Hc. simpl in Hc.
    apply list_elem_of_singleton in Hc as ->. reflexivity. }
  split; [exact Hnone|].
  apply (@headingless_sections_are_labelled_Bin
           Sample.ascii_db Sample.dmy_parser
           (Sample.page_soup Sample.headingless_page) Sample.forward_order
           false (py "<div><div class='colldates'></div></div>")).
  exact Hnone.
Defined.

Lemma no_date_witness :
  (length (filter (fun c => @is_decimal Sample.ascii_db c = true)
             (py "Next collection TBD")) < 5)%nat /\
  @_extract_date Sample.ascii_db Sample.dmy_parser (py "Next collection TBD")
  = None.
Proof.
  split; [vm_compute; lia|].
  apply (@no_date_in_short_or_digitless_text
           Sample.ascii_db Sample.dmy_parser (py "Next collection TBD")).
  right. vm_compute. lia.
Defined.

Lemma extracted_date_witness :
  @_extract_date Sample.ascii_db Sample.dmy_parser
    (py "Next collection Monday, 3 March 2025 is due")
  = Some (Date 2025 3 3) /\
  exists pre g post,
    py "Next collection Monday, 3 March 2025 is due" = pre ++ g ++ post /\
    @dtparse Sample.dmy_parser g = Parsed (Date 2025 3 3) /\
    (10 <= length g)%nat /\
    (exists c r, g = c :: r /\ is_ascii_alpha c = true) /\
    (exists r y, g = r ++ y /\ length y = 4%nat /\
       Forall (fun c => @is_decimal Sample.ascii_db c = true) y).
Proof.
  split; [vm_compute; reflexivity|].
  apply (@extracted_date_comes_from_date_text
           Sample.ascii_db Sample.dmy_parser
           (py "Next collection Monday, 3 March 2025 is due")
           (Date 2025 3 3)).
  vm_compute. reflexivity.
Defined.

Lemma text_after_first_date_witness :
  (forall c, is_space c = true -> @is_decimal Sample.ascii_db c = false) /\
  Re.search (@DATE_RE Sample.ascii_db)
    (py "Next collection " ++ py "Monday, 3 March 2025" ++ py " is due")
  = Some {| Re.m_start := length (py "Next collection ");
            Re.group0 := py "Monday, 3 March 2025" |} /\
  @_extract_date Sample.ascii_db Sample.dmy_parser
    (py "Next collection " ++ py "Monday, 3 March 2025"
       ++ py " or Tuesday, 4 March 2025")
  = @_extract_date Sample.ascii_db Sample.dmy_parser
      (py "Next collection " ++ py "Monday, 3 March 2025" ++ py " is due").
Proof.
  split; [exact ascii_db_space_not_decimal|].
  split; [vm_compute; reflexivity|].
  apply (@text_after_first_date_is_ignored
           Sample.ascii_db Sample.dmy_parser
           (py "Next collection ") (py "Monday, 3 March 2025")
           (py " is due") (py " or Tuesday, 4 March 2025")).
  - exact ascii_db_space_not_decimal.
  - vm_compute. reflexivity.
Defined.

Lemma main_early_exit_witness :
  let run :=
    @Cli.main Sample.ascii_db Sample.dmy_parser
      (Sample.page_soup Sample.household_page)
      (Sample.static_http Sample.household_html)
      Sample.forward_order Sample.no_alarm
      Sample.titles_serializer Sample.full_fs
      Sample.bins_args None Sample.stale_world in
  run = (Cli.WriteError, run.2) /\
  Cli.files Sample.stale_world !! py "collections.ics"
  = Some (py "BEGIN:VCALENDAR") /\
  Cli.files run.2 !! py "collections.ics" = Some [].
Proof.
  intros run.
  assert (run = (Cli.WriteError, run.2)) as Hrun by (vm_compute; reflexivity).
  split; [exact Hrun|]. split; [reflexivity|].
  destruct (@main_early_exit_effects
              Sample.ascii_db Sample.dmy_parser
              (Sample.page_soup Sample.household_page)
              (Sample.static_http Sample.household_html)
              Sample.forward_order Sample.no_alarm
              Sample.titles_serializer Sample.full_fs
              Sample.bins_args None Sample.stale_world run.2
              Cli.WriteError Hrun)
    as (u & r & cal & _ & _ & _ & _ & _ & Hfile).
  exact Hfile.
Defined.

Lemma main_finished_witness :
  let run :=
    @Cli.main Sample.ascii_db Sample.dmy_parser
      (Sample.page_soup Sample.household_page)
      (Sample.static_http Sample.household_html)
      Sample.forward_order Sample.no_alarm
      Sample.titles_serializer Sample.plain_fs
      Sample.bins_args None Sample.empty_world in
  run = (Cli.Finished, run.2) /\
  length (Cli.console run.2) = 4%nat /\
  exists u r cal,
    Cli.py_or (Cli.url Sample.bins_args) None = Some u /\ u <> [] /\
    @requests_get (Sample.static_http Sample.household_html) u = Return r /\
    @is_error_status (Sample.static_http Sample.household_html) r = false /\
    let out :=
      @extract Sample.ascii_db Sample.dmy_parser
        (Sample.page_soup Sample.household_page) Sample.forward_order
        (Cli.verbose Sample.bins_args)
        (@r_text (Sample.static_http Sample.household_html) r) in
    @_build_calendar Sample.ascii_db Sample.no_alarm out.1 = Mapped cal /\
    let path := @Path Sample.plain_fs (Cli.output Sample.bins_args) in
    Cli.files run.2 !! path
    = Some (@serialize Sample.titles_serializer cal) /\
    (forall q, q <> path ->
       Cli.files run.2 !! q = Cli.files Sample.empty_world !! q) /\
    Cli.console run.2 =
      Cli.console Sample.empty_world ++
      if Cli.verbose Sample.bins_args
      then out.2 ++ (Cli.event_line <$> out.1)
             ++ [Cli.wrote_line path (size (events cal))]
      else [].
Proof.
  intros run.
  assert (run = (Cli.Finished, run.2)) as Hrun by (vm_compute; reflexivity).
  split; [exact Hrun|]. split; [vm_compute; reflexivity|].
  apply (@main_finished_effects
           Sample.ascii_db Sample.dmy_parser
           (Sample.page_soup Sample.household_page)
           (Sample.static_http Sample.household_html)
           Sample.forward_order Sample.no_alarm
           Sample.titles_serializer Sample.plain_fs
           Sample.bins_args None Sample.empty_world run.2).
  exact Hrun.
Defined.

Lemma main_empty_page_witness :
  @Cli.main Sample.ascii_db Sample.dmy_parser (Sample.page_soup [])
    (Sample.static_http (py "<html></html>"))
    Sample.forward_order Sample.no_alarm
    Sample.titles_serializer Sample.plain_fs
    Sample.bins_args None Sample.empty_world
  = (Cli.Finished,
     {| Cli.console := [py "Wrote collections.ics containing 0 events."];
        Cli.files := {[ py "collections.ics" := [] ]} |}).
Proof.
  etrans.
  - apply (@main_on_page_without_sections
             Sample.ascii_db Sample.dmy_parser (Sample.page_soup [])
             (Sample.static_http (py "<html></html>"))
             Sample.forward_order Sample.no_alarm
             Sample.titles_serializer Sample.plain_fs
             Sample.bins_args None Sample.empty_world
             0x68 (py "ttps://example.org/bins") (py "<html></html>"));
      reflexivity.
  - vm_compute. reflexivity.
Defined.

Lemma main_url_witness :
  Cli.truthy None = false /\ Cli.truthy (Some (py "")) = false /\
  @Cli.main Sample.ascii_db Sample.dmy_parser (Sample.page_soup [])
    Sample.failing_http Sample.forward_order Sample.no_alarm
    Sample.titles_serializer Sample.plain_fs
    {| Cli.url := None; Cli.output := py "collections.ics";
       Cli.verbose := false |}
    (Some (py "")) Sample.empty_world
  = (Cli.SystemExit (py "Error: --url arg or BINCOLL_URL env var required"),
     Sample.empty_world).
Proof.
  split; [reflexivity|]. split; [reflexivity|].
  apply (@main_url_resolution
           Sample.ascii_db Sample.dmy_parser (Sample.page_soup [])
           Sample.failing_http Sample.forward_order Sample.no_alarm
           Sample.titles_serializer Sample.plain_fs
           None (py "collections.ics") false (Some (py ""))
           Sample.empty_world); reflexivity.
Defined.
